(** * SiteRenamer front end: a shallow embedding of the React components

    The development follows [frontend/src/components/LandingPage.jsx] and
    the current [UploadPage] component (the version with editable category
    labels and naming format).  JavaScript strings are sequences of UTF-16
    code units; a code unit is a number [N].  Component state ([useState])
    is a record that every handler takes and returns, together with the
    list of effects it issues (toasts, navigation).  Objects used as
    dictionaries ([uploadedImages], [categoryNames]) are finite maps
    holding their own properties.  [uploadedImages] is written and read
    under component names, which the user chooses: its assignments and
    reads go through [Object.prototype] as the language defines
    ([UploadPage.assign], [UploadPage.getProperty]).  [categoryNames] is
    read at the three category ids only. *)

From Equations Require Import Equations.
From stdpp Require Import gmap list strings.
From Stdlib Require Import NArith Lia DecimalString.
From Stdlib Require Import Ascii.
From Stdlib Require String.

Open Scope list_scope.

(** ** JavaScript strings *)

Abbreviation jsString := (list N).

(** A string literal of the source, as code units. *)
Definition js (s : string) : jsString :=
  Ascii.N_of_ascii <$> String.list_ascii_of_string s.

Definition chr (c : Ascii.ascii) : N := Ascii.N_of_ascii c.
Arguments chr c%_char : simpl never.

Module Regex.

(** [GetSubstitution] of ECMA-262 for a regular expression without capture
    groups: [$$] is a dollar sign, [$&] the matched text, [$`] the text of
    the subject before the match and [$'] the text after it; a dollar sign
    followed by anything else (a digit, [<], or nothing) stands for
    itself. *)
Fixpoint getSubstitution (matched before after template : jsString)
  : jsString :=
  match template with
  | [] => []
  | c :: t =>
      if N.eqb c (chr "$") then
        match t with
        | [] => [c]
        | d :: t' =>
            if N.eqb d (chr "$") then
              chr "$" :: getSubstitution matched before after t'
            else if N.eqb d (chr "`") then
              before ++ getSubstitution matched before after t'
            else if N.eqb d (chr "&") then
              matched ++ getSubstitution matched before after t'
            else if N.eqb d (chr "'") then
              after ++ getSubstitution matched before after t'
            else c :: getSubstitution matched before after t
        end
      else c :: getSubstitution matched before after t
  end.

(** [S.replace(/pat/g, rep)] for a pattern that is a literal, non-empty
    text (the three placeholder patterns of the source): the subject is
    scanned from the left; at a match the expansion of [rep] is emitted and
    the scan resumes behind the match; elsewhere the code unit is copied.
    [before] is the part of the subject already scanned. *)
Equations? replaceFrom (pat rep before s : jsString) : jsString
  by wf (length s) lt :=
  replaceFrom pat rep before [] := [];
  replaceFrom pat rep before (c :: s') with decide (pat `prefix_of` c :: s') => {
    | left _ :=
        getSubstitution pat before (drop (length pat) (c :: s')) rep
          ++ replaceFrom pat rep (before ++ pat)
               (drop (Nat.pred (length pat)) s');
    | right _ := c :: replaceFrom pat rep (before ++ [c]) s' }.
Proof.
  all: rewrite ?length_drop; simpl; lia.
Qed.

Definition replaceAll (pat rep s : jsString) : jsString :=
  replaceFrom pat rep [] s.

(** The character class [[a-zA-Z0-9_-]] of the sanitizing expression. *)
Definition inClass (c : N) : bool :=
  (N.leb 97 c && N.leb c 122) || (N.leb 65 c && N.leb c 90)
  || (N.leb 48 c && N.leb c 57) || N.eqb c 95 || N.eqb c 45.

(** [S.replace(/[^a-zA-Z0-9_-]/g, '_')]: every code unit outside the class
    is a match of length one and becomes an underscore. *)
Definition sanitize (s : jsString) : jsString :=
  (fun c => if inClass c then c else chr "_") <$> s.

End Regex.

(** [String.prototype.trim]: the code units of the WhiteSpace and
    LineTerminator productions of ECMA-262. *)
Definition isWhiteSpace (c : N) : bool :=
  (N.leb 9 c && N.leb c 13) || N.eqb c 32 || N.eqb c 160 || N.eqb c 5760
  || (N.leb 8192 c && N.leb c 8202) || N.eqb c 8232 || N.eqb c 8233
  || N.eqb c 8239 || N.eqb c 8287 || N.eqb c 12288 || N.eqb c 65279.

Fixpoint trimStart (s : jsString) : jsString :=
  match s with
  | [] => []
  | c :: s' => if isWhiteSpace c then trimStart s' else s
  end.

Definition trimEnd (s : jsString) : jsString :=
  reverse (trimStart (reverse s)).

Definition trim (s : jsString) : jsString := trimEnd (trimStart s).

(** A string used as a condition is true when it is not empty. *)
Definition truthy (s : jsString) : bool :=
  match s with [] => false | _ :: _ => true end.

(** [toUpperCase] and [toLowerCase] on the ASCII letters.  The source applies
    [toUpperCase] to the first letter of the literals ['alpha'], ['beta'] and
    ['gamma'] only; other case mappings of Unicode are left out. *)
Definition toUpperCase (s : jsString) : jsString :=
  (fun c => if N.leb 97 c && N.leb c 122 then (c - 32)%N else c) <$> s.

Definition toLowerCase (s : jsString) : jsString :=
  (fun c => if N.leb 65 c && N.leb c 90 then (c + 32)%N else c) <$> s.

(** [s.charAt(0).toUpperCase() + s.slice(1)] *)
Definition capitalize (s : jsString) : jsString :=
  toUpperCase (take 1 s) ++ drop 1 s.

(** A number inside a template literal. *)
Definition numberToString (n : nat) : jsString :=
  js (NilEmpty.string_of_uint (Nat.to_uint n)).

(** What a handler does besides updating the state. *)
Inductive Effect :=
| ToastError (message : jsString)
| ToastSuccess (message : jsString)
| ConsoleError (message : jsString)
| Navigate (path : jsString).

(** ** LandingPage.jsx *)

Module LandingPage.

Record State := { siteId : jsString }.

Definition init : State := {| siteId := [] |}.

(** [onChange] of the input *)
Definition setSiteId (value : jsString) (st : State) : State :=
  {| siteId := value |}.

(** [handleSubmit]: navigate to the upload page of the trimmed id, or do
    nothing. *)
Definition handleSubmit (st : State) : list Effect :=
  if truthy (trim (siteId st))
  then [Navigate (js "/upload/" ++ trim (siteId st))]
  else [].

(** [disabled={!siteId.trim()}] of the submit button *)
Definition submitDisabled (st : State) : bool :=
  negb (truthy (trim (siteId st))).

End LandingPage.

(** ** UploadPage *)

(** An element of [response.data.images]. *)
Record Image := { component_name : jsString; filename : jsString }.

Module UploadPage.

Record State := {
  siteId : jsString;
  activeCategory : jsString;
  componentNames : list jsString;
  categoryNames : gmap jsString jsString;
  uploadedImages : gmap jsString jsString;
  isEditModalOpen : bool;
  isCategoryEditModalOpen : bool;
  isNamingFormatModalOpen : bool;
  editableNames : list jsString;
  editableCategoryNames : gmap jsString jsString;
  namingFormat : jsString;
  editableNamingFormat : jsString;
  draggedIndex : option nat }.

(** The initial values of the [useState] calls; [siteId] is the route
    parameter. *)
Definition init (siteId : jsString) : State :=
  {| siteId := siteId;
     activeCategory := js "alpha";
     componentNames := [];
     categoryNames :=
       <[js "alpha" := js "Alpha"]>
         (<[js "beta" := js "Beta"]> (<[js "gamma" := js "Gamma"]> ∅));
     uploadedImages := ∅;
     isEditModalOpen := false;
     isCategoryEditModalOpen := false;
     isNamingFormatModalOpen := false;
     editableNames := [];
     editableCategoryNames := ∅;
     namingFormat := js "{site_id}_{category}_{component_name}";
     editableNamingFormat := [];
     draggedIndex := None |}.

Definition setActiveCategory v (st : State) : State :=
  {| siteId := siteId st; activeCategory := v;
     componentNames := componentNames st;
     categoryNames := categoryNames st;
     uploadedImages := uploadedImages st;
     isEditModalOpen := isEditModalOpen st;
     isCategoryEditModalOpen := isCategoryEditModalOpen st;
     isNamingFormatModalOpen := isNamingFormatModalOpen st;
     editableNames := editableNames st;
     editableCategoryNames := editableCategoryNames st;
     namingFormat := namingFormat st;
     editableNamingFormat := editableNamingFormat st;
     draggedIndex := draggedIndex st |}.

Definition setComponentNames v (st : State) : State :=
  {| siteId := siteId st; activeCategory := activeCategory st;
     componentNames := v;
     categoryNames := categoryNames st;
     uploadedImages := uploadedImages st;
     isEditModalOpen := isEditModalOpen st;
     isCategoryEditModalOpen := isCategoryEditModalOpen st;
     isNamingFormatModalOpen := isNamingFormatModalOpen st;
     editableNames := editableNames st;
     editableCategoryNames := editableCategoryNames st;
     namingFormat := namingFormat st;
     editableNamingFormat := editableNamingFormat st;
     draggedIndex := draggedIndex st |}.

Definition setCategoryNames v (st : State) : State :=
  {| siteId := siteId st; activeCategory := activeCategory st;
     componentNames := componentNames st;
     categoryNames := v;
     uploadedImages := uploadedImages st;
     isEditModalOpen := isEditModalOpen st;
     isCategoryEditModalOpen := isCategoryEditModalOpen st;
     isNamingFormatModalOpen := isNamingFormatModalOpen st;
     editableNames := editableNames st;
     editableCategoryNames := editableCategoryNames st;
     namingFormat := namingFormat st;
     editableNamingFormat := editableNamingFormat st;
     draggedIndex := draggedIndex st |}.

Definition setUploadedImages v (st : State) : State :=
  {| siteId := siteId st; activeCategory := activeCategory st;
     componentNames := componentNames st;
     categoryNames := categoryNames st;
     uploadedImages := v;
     isEditModalOpen := isEditModalOpen st;
     isCategoryEditModalOpen := isCategoryEditModalOpen st;
     isNamingFormatModalOpen := isNamingFormatModalOpen st;
     editableNames := editableNames st;
     editableCategoryNames := editableCategoryNames st;
     namingFormat := namingFormat st;
     editableNamingFormat := editableNamingFormat st;
     draggedIndex := draggedIndex st |}.

Definition setIsEditModalOpen v (st : State) : State :=
  {| siteId := siteId st; activeCategory := activeCategory st;
     componentNames := componentNames st;
     categoryNames := categoryNames st;
     uploadedImages := uploadedImages st;
     isEditModalOpen := v;
     isCategoryEditModalOpen := isCategoryEditModalOpen st;
     isNamingFormatModalOpen := isNamingFormatModalOpen st;
     editableNames := editableNames st;
     editableCategoryNames := editableCategoryNames st;
     namingFormat := namingFormat st;
     editableNamingFormat := editableNamingFormat st;
     draggedIndex := draggedIndex st |}.

Definition setIsCategoryEditModalOpen v (st : State) : State :=
  {| siteId := siteId st; activeCategory := activeCategory st;
     componentNames := componentNames st;
     categoryNames := categoryNames st;
     uploadedImages := uploadedImages st;
     isEditModalOpen := isEditModalOpen st;
     isCategoryEditModalOpen := v;
     isNamingFormatModalOpen := isNamingFormatModalOpen st;
     editableNames := editableNames st;
     editableCategoryNames := editableCategoryNames st;
     namingFormat := namingFormat st;
     editableNamingFormat := editableNamingFormat st;
     draggedIndex := draggedIndex st |}.

Definition setIsNamingFormatModalOpen v (st : State) : State :=
  {| siteId := siteId st; activeCategory := activeCategory st;
     componentNames := componentNames st;
     categoryNames := categoryNames st;
     uploadedImages := uploadedImages st;
     isEditModalOpen := isEditModalOpen st;
     isCategoryEditModalOpen := isCategoryEditModalOpen st;
     isNamingFormatModalOpen := v;
     editableNames := editableNames st;
     editableCategoryNames := editableCategoryNames st;
     namingFormat := namingFormat st;
     editableNamingFormat := editableNamingFormat st;
     draggedIndex := draggedIndex st |}.

Definition setEditableNames v (st : State) : State :=
  {| siteId := siteId st; activeCategory := activeCategory st;
     componentNames := componentNames st;
     categoryNames := categoryNames st;
     uploadedImages := uploadedImages st;
     isEditModalOpen := isEditModalOpen st;
     isCategoryEditModalOpen := isCategoryEditModalOpen st;
     isNamingFormatModalOpen := isNamingFormatModalOpen st;
     editableNames := v;
     editableCategoryNames := editableCategoryNames st;
     namingFormat := namingFormat st;
     editableNamingFormat := editableNamingFormat st;
     draggedIndex := draggedIndex st |}.

Definition setEditableCategoryNames v (st : State) : State :=
  {| siteId := siteId st; activeCategory := activeCategory st;
     componentNames := componentNames st;
     categoryNames := categoryNames st;
     uploadedImages := uploadedImages st;
     isEditModalOpen := isEditModalOpen st;
     isCategoryEditModalOpen := isCategoryEditModalOpen st;
     isNamingFormatModalOpen := isNamingFormatModalOpen st;
     editableNames := editableNames st;
     editableCategoryNames := v;
     namingFormat := namingFormat st;
     editableNamingFormat := editableNamingFormat st;
     draggedIndex := draggedIndex st |}.

Definition setNamingFormat v (st : State) : State :=
  {| siteId := siteId st; activeCategory := activeCategory st;
     componentNames := componentNames st;
     categoryNames := categoryNames st;
     uploadedImages := uploadedImages st;
     isEditModalOpen := isEditModalOpen st;
     isCategoryEditModalOpen := isCategoryEditModalOpen st;
     isNamingFormatModalOpen := isNamingFormatModalOpen st;
     editableNames := editableNames st;
     editableCategoryNames := editableCategoryNames st;
     namingFormat := v;
     editableNamingFormat := editableNamingFormat st;
     draggedIndex := draggedIndex st |}.

Definition setEditableNamingFormat v (st : State) : State :=
  {| siteId := siteId st; activeCategory := activeCategory st;
     componentNames := componentNames st;
     categoryNames := categoryNames st;
     uploadedImages := uploadedImages st;
     isEditModalOpen := isEditModalOpen st;
     isCategoryEditModalOpen := isCategoryEditModalOpen st;
     isNamingFormatModalOpen := isNamingFormatModalOpen st;
     editableNames := editableNames st;
     editableCategoryNames := editableCategoryNames st;
     namingFormat := namingFormat st;
     editableNamingFormat := v;
     draggedIndex := draggedIndex st |}.

Definition setDraggedIndex v (st : State) : State :=
  {| siteId := siteId st; activeCategory := activeCategory st;
     componentNames := componentNames st;
     categoryNames := categoryNames st;
     uploadedImages := uploadedImages st;
     isEditModalOpen := isEditModalOpen st;
     isCategoryEditModalOpen := isCategoryEditModalOpen st;
     isNamingFormatModalOpen := isNamingFormatModalOpen st;
     editableNames := editableNames st;
     editableCategoryNames := editableCategoryNames st;
     namingFormat := namingFormat st;
     editableNamingFormat := editableNamingFormat st;
     draggedIndex := v |}.

(** The file picked in a file input or dropped on a card. *)
Record File := { fileName : jsString }.

(** The outcome of a [PUT] request; a failure may carry
    [error.response.data.detail]. *)
Inductive PutResult :=
| PutOk
| PutFailed (detail : option jsString).

(** *** Loading from the server

    The argument [response] of a loader is the payload of the answer,
    [None] when the request throws. *)

Definition fetchComponentNames (response : option (list jsString))
    (st : State) : State * list Effect :=
  match response with
  | Some names => (setEditableNames names (setComponentNames names st), [])
  | None =>
      (st, [ConsoleError (js "Error fetching component names:");
            ToastError (js "Failed to load component names")])
  end.

Definition fetchCategoryNames
    (response : option (gmap jsString jsString))
    (st : State) : State * list Effect :=
  match response with
  | Some categories =>
      (setEditableCategoryNames categories
         (setCategoryNames categories st), [])
  | None => (st, [ConsoleError (js "Error fetching category names:")])
  end.

Definition fetchNamingFormat (response : option jsString)
    (st : State) : State * list Effect :=
  match response with
  | Some format =>
      (setEditableNamingFormat format (setNamingFormat format st), [])
  | None => (st, [ConsoleError (js "Error fetching naming format:")])
  end.

(** *** Plain objects as dictionaries

    [imagesMap] is created by the literal [{}] and becomes
    [uploadedImages]: an ordinary object whose prototype is
    [Object.prototype].  The finite map holds its own properties, all of
    them strings. *)

(** The property names of [Object.prototype] (ECMA-262, 20.1.3). *)
Definition objectPrototypeMembers : list jsString :=
  [js "constructor"; js "__defineGetter__"; js "__defineSetter__";
   js "hasOwnProperty"; js "__lookupGetter__"; js "__lookupSetter__";
   js "isPrototypeOf"; js "propertyIsEnumerable"; js "toString";
   js "valueOf"; js "__proto__"; js "toLocaleString"].

(** What [obj[key]] evaluates to: a string of the object's own, or the
    member of [Object.prototype] of that name (a built-in function; for
    [__proto__] the getter's result, which is [Object.prototype]
    itself). *)
Inductive Value :=
| Str (s : jsString)
| Inherited (member : jsString).

(** [obj[key] = value] with a string [value].  [__proto__] is an accessor
    of [Object.prototype]: the assignment calls its setter, which ignores
    a value that is neither an object nor [null], and no own property is
    created.  The other members are writable data properties, which the
    assignment shadows by an own property like any other key. *)
Definition assign (key value : jsString)
    (obj : gmap jsString jsString) : gmap jsString jsString :=
  if decide (key = js "__proto__") then obj else <[key := value]> obj.

(** [obj[key]]: the own property, else the member inherited from
    [Object.prototype], else [undefined] ([None]). *)
Definition getProperty (obj : gmap jsString jsString)
    (key : jsString) : option Value :=
  match obj !! key with
  | Some s => Some (Str s)
  | None =>
      if decide (key ∈ objectPrototypeMembers) then Some (Inherited key)
      else None
  end.

(** [!value] is false: functions and objects are truthy. *)
Definition truthyValue (v : Value) : bool :=
  match v with
  | Str s => truthy s
  | Inherited _ => true
  end.

(** The conversion to a string inside a template literal.
    [Object.prototype] converts to [[object Object]]; the text of a
    built-in function is left to the engine within the [NativeFunction]
    syntax, and is the parameter [nativeText], by the member's name. *)
Definition toStringValue (nativeText : jsString -> jsString)
    (v : Value) : jsString :=
  match v with
  | Str s => s
  | Inherited member =>
      if decide (member = js "__proto__") then js "[object Object]"
      else nativeText member
  end.

(** The body of [fetchCategoryImages], the same in both versions of the
    page: an empty object filled by [forEach], one assignment
    [imagesMap[img.component_name] = img.filename] per element, in the
    order of the response. *)
Definition imagesMap (images : list Image) : gmap jsString jsString :=
  foldl (fun m img => assign (component_name img) (filename img) m)
    ∅ images.

Definition fetchCategoryImages (category : jsString)
    (response : option (list Image))
    (st : State) : State * list Effect :=
  match response with
  | Some images => (setUploadedImages (imagesMap images) st, [])
  | None => (st, [ConsoleError (js "Error fetching category images:")])
  end.

(** *** Uploading and downloading *)

(** [handleFileSelect]: [posted] tells whether the upload request
    succeeded; [response] answers the reload of the active category that
    follows a successful upload. *)
Definition handleFileSelect (componentName : jsString) (file : option File)
    (posted : bool) (response : option (list Image))
    (st : State) : State * list Effect :=
  match file with
  | None => (st, [])
  | Some _ =>
      if posted then
        let '(st', effects) :=
          fetchCategoryImages (activeCategory st) response st in
        (st', ToastSuccess (componentName ++ js " uploaded successfully")
                :: effects)
      else
        (st, [ConsoleError (js "Error uploading file:");
              ToastError (js "Failed to upload image")])
  end.

(** [handleDrop]; [files] is [e.dataTransfer.files]. *)
Definition handleDrop (componentName : jsString) (files : list File)
    (posted : bool) (response : option (list Image))
    (st : State) : State * list Effect :=
  let st1 := setDraggedIndex None st in
  match files with
  | file :: _ => handleFileSelect componentName (Some file) posted response st1
  | [] => (st1, [])
  end.

Definition handleDragOver (index : nat) (st : State) : State :=
  setDraggedIndex (Some index) st.

Definition handleDragLeave (st : State) : State :=
  setDraggedIndex None st.

Definition handleDownload (ok : bool) (st : State) : State * list Effect :=
  if ok then (st, [ToastSuccess (js "Images downloaded successfully")])
  else
    (st, [ConsoleError (js "Error downloading images:");
          ToastError
            (js ("Failed to download images. "
                 +:+ "Make sure you have uploaded some images."))]).

(** *** Saving the three editors *)

Definition handleSaveComponentNames (result : PutResult)
    (st : State) : State * list Effect :=
  match result with
  | PutOk =>
      (setIsEditModalOpen false (setComponentNames (editableNames st) st),
       [ToastSuccess (js "Component names updated successfully")])
  | PutFailed _ =>
      (st, [ConsoleError (js "Error updating component names:");
            ToastError (js "Failed to update component names")])
  end.

Definition handleSaveCategoryNames (result : PutResult)
    (st : State) : State * list Effect :=
  match result with
  | PutOk =>
      (setIsCategoryEditModalOpen false
         (setCategoryNames (editableCategoryNames st) st),
       [ToastSuccess (js "Category names updated successfully")])
  | PutFailed _ =>
      (st, [ConsoleError (js "Error updating category names:");
            ToastError (js "Failed to update category names")])
  end.

Definition handleSaveNamingFormat (result : PutResult)
    (st : State) : State * list Effect :=
  match result with
  | PutOk =>
      (setIsNamingFormatModalOpen false
         (setNamingFormat (editableNamingFormat st) st),
       [ToastSuccess (js "Naming format updated successfully")])
  | PutFailed detail =>
      (st, [ConsoleError (js "Error updating naming format:");
            ToastError
              (match detail with
               | Some d =>
                   if truthy d then d
                   else js "Failed to update naming format"
               | None => js "Failed to update naming format"
               end)])
  end.

(** *** The component-name editor *)

Definition handleAddComponent (st : State) : State :=
  let newName :=
    js "New Component " ++ numberToString (length (editableNames st) + 1) in
  setEditableNames (editableNames st ++ [newName]) st.

(** [names.filter((_, i) => i !== index)], counting from [i]. *)
Fixpoint filterIndexNot (index i : nat) (names : list jsString)
  : list jsString :=
  match names with
  | [] => []
  | name :: rest =>
      if Nat.eqb i index then filterIndexNot index (S i) rest
      else name :: filterIndexNot index (S i) rest
  end.

Definition handleRemoveComponent (index : nat)
    (st : State) : State * list Effect :=
  if Nat.leb (length (editableNames st)) 1 then
    (st, [ToastError (js "Must have at least one component")])
  else
    (setEditableNames (filterIndexNot index 0 (editableNames st)) st, []).

(** [onChange] of the input of row [index]: a copy of the list with the
    entry at [index] overwritten.  The rows are produced by
    [editableNames.map], so [index] is always in range. *)
Definition changeComponentName (index : nat) (value : jsString)
    (st : State) : State :=
  setEditableNames (<[index := value]> (editableNames st)) st.

Definition cancelEdit (st : State) : State :=
  setIsEditModalOpen false (setEditableNames (componentNames st) st).

(** *** Categories *)

(** The array literal [['alpha', 'beta', 'gamma']] of the tab bar and of
    the category editor. *)
Definition categoryIds : list jsString :=
  [js "alpha"; js "beta"; js "gamma"].

(** [a || b] on strings that may be missing. *)
Definition orElse (a : option jsString) (b : jsString) : jsString :=
  match a with
  | Some s => if truthy s then s else b
  | None => b
  end.

(** The text of a tab:
    [categoryNames[category] || category.charAt(0).toUpperCase() +
    category.slice(1)]. *)
Definition tabLabel (st : State) (category : jsString) : jsString :=
  orElse (categoryNames st !! category) (capitalize category).

(** The tab bar: identifier (key and click target) and text of each tab. *)
Definition categoryTabs (st : State) : list (jsString * jsString) :=
  (fun category => (category, tabLabel st category)) <$> categoryIds.

(** The rows of the category editor: key and value of each input,
    [editableCategoryNames[key] || '']. *)
Definition categoryInputs (st : State) : list (jsString * jsString) :=
  (fun key => (key, orElse (editableCategoryNames st !! key) []))
    <$> categoryIds.

(** [onChange] of the input of [key]:
    [{...editableCategoryNames, [key]: value}]. *)
Definition changeCategoryName (key value : jsString)
    (st : State) : State :=
  setEditableCategoryNames (<[key := value]> (editableCategoryNames st)) st.

Definition cancelCategoryEdit (st : State) : State :=
  setIsCategoryEditModalOpen false
    (setEditableCategoryNames (categoryNames st) st).

(** *** The naming format *)

Definition insertPlaceholder (placeholder : jsString)
    (st : State) : State :=
  setEditableNamingFormat (editableNamingFormat st ++ placeholder) st.

Definition cancelNamingEdit (st : State) : State :=
  setIsNamingFormatModalOpen false
    (setEditableNamingFormat (namingFormat st) st).

(** The three [replace] calls of [getPreviewFilename], in the order of
    the source. *)
Definition substitutePlaceholders
    (format siteId category componentName : jsString) : jsString :=
  let preview := format in
  let preview := Regex.replaceAll (js "{site_id}") siteId preview in
  let preview := Regex.replaceAll (js "{category}") category preview in
  let preview :=
    Regex.replaceAll (js "{component_name}") componentName preview in
  preview.

(** Lines 213 to 218 with the four strings they read as arguments. *)
Definition renderPreview
    (format siteId category componentName : jsString) : jsString :=
  let preview :=
    substitutePlaceholders format siteId category componentName in
  let preview := Regex.sanitize preview in
  preview ++ js ".jpg".

Definition getPreviewFilename (st : State) : jsString :=
  renderPreview (editableNamingFormat st) (siteId st) (activeCategory st)
    (js "Antenna_Front_View").

(** [getImageUrl]; [BACKEND_URL] comes from the build environment and
    [nativeText] from the engine.  [null] is [None]; [filename] is
    whatever [uploadedImages[componentName]] evaluates to. *)
Definition getImageUrl (BACKEND_URL : jsString)
    (nativeText : jsString -> jsString) (st : State)
    (componentName : jsString) : option jsString :=
  match getProperty (uploadedImages st) componentName with
  | None => None
  | Some filename =>
      if truthyValue filename then
        Some (BACKEND_URL ++ js "/uploads/" ++ siteId st ++ js "/"
                ++ activeCategory st ++ js "/"
                ++ toStringValue nativeText filename)
      else None
  end.

(** *** The page as a transition system

    An event is a user action on a rendered control or the completion of
    a request, with what the server answered. *)
Inductive Event :=
| ComponentNamesLoaded (response : option (list jsString))
| CategoryNamesLoaded (response : option (gmap jsString jsString))
| NamingFormatLoaded (response : option jsString)
| CategoryImagesLoaded (response : option (list Image))
| TabClicked (category : jsString)
| FileChosen (componentName : jsString) (file : option File)
    (posted : bool) (response : option (list Image))
| FileDropped (componentName : jsString) (files : list File)
    (posted : bool) (response : option (list Image))
| DraggedOver (index : nat)
| DragLeft
| DownloadClicked (ok : bool)
| EditOpened
| EditClosed
| EditCancelled
| ComponentAdded
| ComponentRemoved (index : nat)
| ComponentRenamed (index : nat) (value : jsString)
| ComponentsSaved (result : PutResult)
| CategoryEditOpened
| CategoryEditClosed
| CategoryEditCancelled
| CategoryRenamed (key value : jsString)
| CategoriesSaved (result : PutResult)
| NamingOpened
| NamingClosed
| NamingCancelled
| NamingTyped (value : jsString)
| PlaceholderInserted (placeholder : jsString)
| NamingSaved (result : PutResult).

Definition handle (e : Event) (st : State) : State * list Effect :=
  match e with
  | ComponentNamesLoaded response => fetchComponentNames response st
  | CategoryNamesLoaded response => fetchCategoryNames response st
  | NamingFormatLoaded response => fetchNamingFormat response st
  | CategoryImagesLoaded response =>
      fetchCategoryImages (activeCategory st) response st
  | TabClicked category => (setActiveCategory category st, [])
  | FileChosen componentName file posted response =>
      handleFileSelect componentName file posted response st
  | FileDropped componentName files posted response =>
      handleDrop componentName files posted response st
  | DraggedOver index => (handleDragOver index st, [])
  | DragLeft => (handleDragLeave st, [])
  | DownloadClicked ok => handleDownload ok st
  | EditOpened => (setIsEditModalOpen true st, [])
  | EditClosed => (setIsEditModalOpen false st, [])
  | EditCancelled => (cancelEdit st, [])
  | ComponentAdded => (handleAddComponent st, [])
  | ComponentRemoved index => handleRemoveComponent index st
  | ComponentRenamed index value => (changeComponentName index value st, [])
  | ComponentsSaved result => handleSaveComponentNames result st
  | CategoryEditOpened => (setIsCategoryEditModalOpen true st, [])
  | CategoryEditClosed => (setIsCategoryEditModalOpen false st, [])
  | CategoryEditCancelled => (cancelCategoryEdit st, [])
  | CategoryRenamed key value => (changeCategoryName key value st, [])
  | CategoriesSaved result => handleSaveCategoryNames result st
  | NamingOpened => (setIsNamingFormatModalOpen true st, [])
  | NamingClosed => (setIsNamingFormatModalOpen false st, [])
  | NamingCancelled => (cancelNamingEdit st, [])
  | NamingTyped value => (setEditableNamingFormat value st, [])
  | PlaceholderInserted placeholder => (insertPlaceholder placeholder st, [])
  | NamingSaved result => handleSaveNamingFormat result st
  end.

(** The events the rendered page offers in a state: a tab, a card or an
    editor row exists only for an element of the array it is mapped
    from, and the controls of an editor only while it is open. *)
Definition offered (st : State) (e : Event) : Prop :=
  match e with
  | CategoryImagesLoaded _ => componentNames st ≠ []
  | TabClicked category => category ∈ categoryIds
  | FileChosen componentName _ _ _
  | FileDropped componentName _ _ _ => componentName ∈ componentNames st
  | DraggedOver index => index < length (componentNames st)
  | EditClosed | EditCancelled | ComponentAdded | ComponentsSaved _ =>
      isEditModalOpen st = true
  | ComponentRemoved index | ComponentRenamed index _ =>
      isEditModalOpen st = true ∧ index < length (editableNames st)
  | CategoryEditClosed | CategoryEditCancelled | CategoriesSaved _ =>
      isCategoryEditModalOpen st = true
  | CategoryRenamed key _ =>
      isCategoryEditModalOpen st = true ∧ key ∈ categoryIds
  | NamingClosed | NamingCancelled | NamingTyped _ | NamingSaved _ =>
      isNamingFormatModalOpen st = true
  | PlaceholderInserted placeholder =>
      isNamingFormatModalOpen st = true
      ∧ placeholder
          ∈ [js "{site_id}"; js "{category}"; js "{component_name}"]
  | _ => True
  end.

Inductive step (st : State) : State -> Prop :=
| step_event (e : Event) : offered st e -> step st (handle e st).1.

(** The states the page of site [siteId] can be in. *)
Definition reachable (siteId : jsString) (st : State) : Prop :=
  rtc step (init siteId) st.

End UploadPage.

(** ** The contracts of the specification

    The two modules below are written from the words of the specification,
    to be compared with the code above. *)

Module Contract.

(** The binding of §4.1: [{site, category, component}]. *)
Record Bindings := {
  site : jsString;
  category : jsString;
  component : jsString }.

(** The recognized placeholder tokens with their bound values. *)
Definition placeholders (b : Bindings) : list (jsString * jsString) :=
  [(js "{site_id}", site b);
   (js "{category}", category b);
   (js "{component_name}", component b)].

(** The recognized token the text starts with, if any. *)
Definition tokenAt (b : Bindings) (s : jsString)
  : option (jsString * jsString) :=
  List.find (fun p => bool_decide (p.1 `prefix_of` s)) (placeholders b).

(** §4.1, substitution: every recognized token of the format is replaced
    verbatim by its bound value, in one pass over the format, so that no
    substituted value is looked at again. *)
Equations? substitute (b : Bindings) (s : jsString) : jsString
  by wf (length s) lt :=
  substitute b [] := [];
  substitute b (c :: s') with tokenAt b (c :: s') => {
    | Some p := p.2 ++ substitute b (drop (Nat.pred (length p.1)) s');
    | None := c :: substitute b s' }.
Proof.
  all: rewrite ?length_drop; simpl; lia.
Qed.

(** §4.1, the set [[A-Za-z0-9_-]]. *)
Definition allowed (c : N) : bool :=
  bool_decide (chr "A" ≤ c ≤ chr "Z")%N
  || bool_decide (chr "a" ≤ c ≤ chr "z")%N
  || bool_decide (chr "0" ≤ c ≤ chr "9")%N
  || bool_decide (c = chr "_") || bool_decide (c = chr "-").

(** §4.1, sanitization: every character not in the set becomes an
    underscore. *)
Definition sanitize (s : jsString) : jsString :=
  (fun c => if allowed c then c else chr "_") <$> s.

(** §4.1, [render]: substitute, sanitize, append a dot and the lower-cased
    extension of the original file. *)
Definition render (format : jsString) (b : Bindings)
    (originalExtension : jsString) : jsString :=
  sanitize (substitute b format) ++ js "." ++ toLowerCase originalExtension.

End Contract.

Module Registry.

(** Modelled from the spec: the error kinds of §7 that the Taxonomy
    Registry signals. *)
Inductive Error :=
| EmptyTaxonomyError
| UnknownCategoryError.

(** Modelled from the spec: the state of the Taxonomy Registry of §4.2,
    which lives on the server: the ordered component names and the
    category labels. *)
Record State := {
  components : list jsString;
  labels : gmap jsString jsString }.

(** Modelled from the spec: [listComponents] of §4.2, the current
    component names. *)
Definition listComponents (reg : State) : list jsString :=
  components reg.

(** Modelled from the spec: [replaceComponents] of §4.2.  It fails with
    [EmptyTaxonomyError] on the empty sequence; otherwise it trims every
    entry, keeps duplicates and replaces the registry. *)
Definition replaceComponents (names : list jsString) (reg : State)
  : (Error + unit) * State :=
  match names with
  | [] => (inl EmptyTaxonomyError, reg)
  | _ :: _ =>
      (inr tt, {| components := trim <$> names; labels := labels reg |})
  end.

(** Modelled from the spec: the request layer of §6 behind
    [PUT /component-names], as the page sees it: the outcome of
    [replaceComponents] reported as the result of the request. *)
Definition putComponentNames (names : list jsString) (reg : State)
  : UploadPage.PutResult * State :=
  match replaceComponents names reg with
  | (inl _, reg') => (UploadPage.PutFailed None, reg')
  | (inr _, reg') => (UploadPage.PutOk, reg')
  end.

(** Modelled from the spec: the Save button of the component editor wired
    to the registry as in §6: the page sends [editableNames] and handles
    the outcome with [handleSaveComponentNames]. *)
Definition saveComponentNames (st : UploadPage.State) (reg : State)
  : UploadPage.State * list Effect * State :=
  let '(result, reg') := putComponentNames (UploadPage.editableNames st) reg in
  (UploadPage.handleSaveComponentNames result st, reg').

End Registry.

(** ** Properties stated about the code *)

(** The characters a rendered filename may contain: [[A-Za-z0-9_-.]]. *)
Definition filenameChar (c : N) : bool :=
  Contract.allowed c || bool_decide (c = chr ".").

(** The white space that [trim] removes. *)
Definition whiteSpace (c : N) : Prop := isWhiteSpace c = true.

(** *** The shape of a format

    A token is a name between braces; the three placeholders are the
    tokens of [site_id], [category] and [component_name]. *)
Definition token (name : jsString) : jsString := js "{" ++ name ++ js "}".
Arguments token name : simpl never.

Definition braceFree (s : jsString) : Prop :=
  (chr "{" ∉ s) ∧ (chr "}" ∉ s).

Definition dollarFree (s : jsString) : Prop := chr "$" ∉ s.

Definition recognized : list jsString :=
  [js "site_id"; js "category"; js "component_name"].

(** A format read as a sequence of literal text and tokens. *)
Inductive Piece :=
| Text (text : jsString)
| Token (name : jsString).

Definition pieceText (p : Piece) : jsString :=
  match p with
  | Text text => text
  | Token name => token name
  end.

Definition formatOf (pieces : list Piece) : jsString :=
  concat (pieceText <$> pieces).

(** Braces occur in the format as the delimiters of tokens only. *)
Definition wellBraced (pieces : list Piece) : Prop :=
  Forall (fun p =>
            match p with
            | Text text => braceFree text
            | Token name => braceFree name
            end) pieces.

(** What a piece stands for under a binding: a recognized token for its
    value, anything else for itself. *)
Definition bindPiece (b : Contract.Bindings) (p : Piece) : jsString :=
  match p with
  | Text text => text
  | Token name =>
      if decide (name = js "site_id") then Contract.site b
      else if decide (name = js "category") then Contract.category b
      else if decide (name = js "component_name") then Contract.component b
      else token name
  end.

(** One [replace] call seen on pieces: the tokens of [name] become the
    text [value]. *)
Definition substPiece (name value : jsString) (p : Piece) : Piece :=
  match p with
  | Text text => Text text
  | Token n => if decide (n = name) then Text value else Token n
  end.

(** The [replace] calls of [getPreviewFilename] performed in an arbitrary
    order, each given by its pattern and its replacement. *)
Definition substituteInOrder (order : list (jsString * jsString))
    (format : jsString) : jsString :=
  foldl (fun preview step => Regex.replaceAll step.1 step.2 preview)
    format order.

(** The extension of a file name: the text behind its last dot. *)
Fixpoint extensionOf (name : jsString) : option jsString :=
  match name with
  | [] => None
  | c :: rest =>
      match extensionOf rest with
      | Some extension => Some extension
      | None => if N.eqb c (chr ".") then Some rest else None
      end
  end.

(** ** The rest of the page

    The image grid of [UploadPage]: one card per entry of
    [componentNames], in order, with its index, its label and the address
    [getImageUrl] gives for the label. *)
Definition imageCards (BACKEND_URL : jsString)
    (nativeText : jsString -> jsString) (st : UploadPage.State)
  : list (nat * jsString * option jsString) :=
  imap (fun index componentName =>
          (index, componentName,
           UploadPage.getImageUrl BACKEND_URL nativeText st componentName))
    (UploadPage.componentNames st).

(** The page after a sequence of events. *)
Definition runEvents (events : list UploadPage.Event)
    (st : UploadPage.State) : UploadPage.State :=
  foldl (fun s e => (UploadPage.handle e s).1) st events.

(** The events of typing and clicking inside one of the three editors. *)
Definition isEdit (e : UploadPage.Event) : bool :=
  match e with
  | UploadPage.ComponentAdded
  | UploadPage.ComponentRemoved _
  | UploadPage.ComponentRenamed _ _
  | UploadPage.CategoryRenamed _ _
  | UploadPage.NamingTyped _
  | UploadPage.PlaceholderInserted _ => true
  | _ => false
  end.

(** The events that carry the failure of a request. *)
Definition failed (e : UploadPage.Event) : bool :=
  match e with
  | UploadPage.ComponentNamesLoaded None
  | UploadPage.CategoryNamesLoaded None
  | UploadPage.NamingFormatLoaded None
  | UploadPage.CategoryImagesLoaded None
  | UploadPage.FileChosen _ (Some _) false _
  | UploadPage.DownloadClicked false
  | UploadPage.ComponentsSaved (UploadPage.PutFailed _)
  | UploadPage.CategoriesSaved (UploadPage.PutFailed _)
  | UploadPage.NamingSaved (UploadPage.PutFailed _) => true
  | _ => false
  end.

(** The events that carry a successful load or save of the component names,
    the category names or the naming format. *)
Definition commits (e : UploadPage.Event) : bool :=
  match e with
  | UploadPage.ComponentNamesLoaded (Some _)
  | UploadPage.CategoryNamesLoaded (Some _)
  | UploadPage.NamingFormatLoaded (Some _)
  | UploadPage.ComponentsSaved UploadPage.PutOk
  | UploadPage.CategoriesSaved UploadPage.PutOk
  | UploadPage.NamingSaved UploadPage.PutOk => true
  | _ => false
  end.

(** The events that carry an answer of the image list. *)
Definition loadsImages (e : UploadPage.Event) : bool :=
  match e with
  | UploadPage.CategoryImagesLoaded (Some _)
  | UploadPage.FileChosen _ (Some _) true (Some _)
  | UploadPage.FileDropped _ (_ :: _) true (Some _) => true
  | _ => false
  end.

(** The loads whose failure is written to the console only. *)
Definition silent (e : UploadPage.Event) : bool :=
  match e with
  | UploadPage.CategoryNamesLoaded _
  | UploadPage.NamingFormatLoaded _
  | UploadPage.CategoryImagesLoaded _ => true
  | _ => false
  end.

Definition isToast (effect : Effect) : bool :=
  match effect with
  | ToastError _ | ToastSuccess _ => true
  | _ => false
  end.

(** [pat] occurs somewhere in [s]. *)
Definition occursIn (pat s : jsString) : Prop :=
  ∃ front back, s = front ++ pat ++ back.

(** * Theorems *)

(** Closed facts about literals of the source are settled by evaluation. *)
Ltac by_computation := apply (bool_decide_unpack _); by vm_compute.

(** ** The code on small inputs *)

Example trim_inner_space :
  trim (js "  SITE 2024 ") = js "SITE 2024"
  ∧ trim (js " ") = [] ∧ trim [9; 8195; 65; 160; 65279]%N = [65%N].
Proof. by vm_compute. Qed.

Example capitalize_beta : capitalize (js "beta") = js "Beta".
Proof. by vm_compute. Qed.

Example remove_second :
  (UploadPage.handleRemoveComponent 1
     (UploadPage.setEditableNames [js "A"; js "B"; js "C"]
        (UploadPage.init (js "S")))).1
  = UploadPage.setEditableNames [js "A"; js "C"] (UploadPage.init (js "S")).
Proof. reflexivity. Qed.

Example add_component :
  UploadPage.editableNames
    (UploadPage.handleAddComponent
       (UploadPage.setEditableNames [js "A"] (UploadPage.init (js "S"))))
  = [js "A"; js "New Component 2"].
Proof. by vm_compute. Qed.

Example preview_default :
  UploadPage.getPreviewFilename
    (UploadPage.setEditableNamingFormat
       (js "{site_id}_{category}_{component_name}")
       (UploadPage.init (js "SITE-2024-001")))
  = js "SITE-2024-001_alpha_Antenna_Front_View.jpg".
Proof. vm_compute. reflexivity. Qed.

Example replaceAll_patterns :
  Regex.replaceAll (js "{site_id}") (js "[$&|$`|$'|$$|$1|$<|$]")
    (js "a{site_id}b{site_id}")
  = js "a[{site_id}|a|b{site_id}|$|$1|$<|$]b[{site_id}|a{site_id}b||$|$1|$<|$]".
Proof. vm_compute. reflexivity. Qed.

Example preview_spaces :
  UploadPage.renderPreview (js "my {site_id} (v2) {foo}") (js "S 1")
    (js "beta") (js "Tower")
  = js "my_S_1__v2___foo_.jpg".
Proof. vm_compute. reflexivity. Qed.

(** ** Trimming *)

Lemma trimStart_split s :
  ∃ l, s = l ++ trimStart s ∧ Forall whiteSpace l.
Proof.
  induction s as [|c s IH]; simpl.
  - exists []. split; [done | constructor].
  - destruct (isWhiteSpace c) eqn:Hc.
    + destruct IH as (l & Hs & Hl). exists (c :: l). split.
      * simpl. by rewrite <- Hs.
      * by constructor.
    + exists []. split; [done | constructor].
Qed.

Lemma trimStart_head s c : head (trimStart s) = Some c → ¬ whiteSpace c.
Proof.
  induction s as [|d s IH]; simpl; [done |].
  destruct (isWhiteSpace d) eqn:Hd; [done |].
  simpl. intros [= <-]. unfold whiteSpace. congruence.
Qed.

Lemma trimStart_id s :
  (∀ c, head s = Some c → ¬ whiteSpace c) → trimStart s = s.
Proof.
  destruct s as [|c s]; simpl; [done |].
  intros H. destruct (isWhiteSpace c) eqn:Hc; [| done].
  by destruct (H c).
Qed.

Lemma trimStart_whiteSpace s : Forall whiteSpace s → trimStart s = [].
Proof.
  induction 1 as [|c s Hc _ IH]; simpl; [done |]. by rewrite Hc.
Qed.

Lemma trimEnd_split s :
  ∃ r, s = trimEnd s ++ r ∧ Forall whiteSpace r.
Proof.
  unfold trimEnd. destruct (trimStart_split (reverse s)) as (l & Hs & Hl).
  exists (reverse l). split.
  - rewrite <- reverse_app, <- Hs. by rewrite reverse_involutive.
  - by apply Forall_reverse.
Qed.

Lemma trimEnd_last s c : last (trimEnd s) = Some c → ¬ whiteSpace c.
Proof.
  unfold trimEnd. rewrite last_reverse. apply trimStart_head.
Qed.

Lemma trimEnd_head s c :
  (∀ d, head s = Some d → ¬ whiteSpace d) →
  head (trimEnd s) = Some c → ¬ whiteSpace c.
Proof.
  intros Hs Hc. destruct (trimEnd_split s) as (r & Heq & Hr).
  destruct (trimEnd s) as [|d t] eqn:Ht; [done |].
  simpl in Hc. injection Hc as ->. apply Hs. by rewrite Heq.
Qed.

Lemma trimEnd_id s :
  (∀ c, last s = Some c → ¬ whiteSpace c) → trimEnd s = s.
Proof.
  intros H. unfold trimEnd. rewrite trimStart_id.
  - apply reverse_involutive.
  - intros c Hc. apply H. by rewrite <- head_reverse.
Qed.

Lemma trim_split s :
  ∃ l r, s = l ++ trim s ++ r ∧ Forall whiteSpace l ∧ Forall whiteSpace r.
Proof.
  destruct (trimStart_split s) as (l & Hl & Hwl).
  destruct (trimEnd_split (trimStart s)) as (r & Hr & Hwr).
  exists l, r. unfold trim. by rewrite <- Hr, <- Hl.
Qed.

Lemma trim_head s c : head (trim s) = Some c → ¬ whiteSpace c.
Proof. apply trimEnd_head. apply trimStart_head. Qed.

Lemma trim_last s c : last (trim s) = Some c → ¬ whiteSpace c.
Proof. apply trimEnd_last. Qed.

Lemma trim_idemp s : trim (trim s) = trim s.
Proof.
  unfold trim at 1. rewrite (trimStart_id (trim s)).
  - apply trimEnd_id, trim_last.
  - apply trim_head.
Qed.

Lemma trim_whiteSpace s : Forall whiteSpace s ↔ trim s = [].
Proof.
  split.
  - intros H. unfold trim. by rewrite trimStart_whiteSpace.
  - intros H. destruct (trim_split s) as (l & r & Hs & Hl & Hr).
    rewrite H in Hs. rewrite Hs. simpl. by apply Forall_app.
Qed.

Lemma truthy_nonempty s : truthy s = true ↔ s ≠ [].
Proof. by destruct s. Qed.

(** C10: the landing page navigates exactly when the entered site id is
    not empty after trimming, and then to the upload page of the trimmed
    id: the raw input is the trimmed id between two runs of white space,
    the trimmed id neither starts nor ends with white space and trimming it
    again changes nothing; an input of white space only navigates nowhere
    and keeps the button disabled. *)
Theorem C10_landing_submit_trimmed (st : LandingPage.State) :
  let raw := LandingPage.siteId st in
  ((∃ path, Navigate path ∈ LandingPage.handleSubmit st) ↔ trim raw ≠ [])
  ∧ (trim raw ≠ [] →
     LandingPage.handleSubmit st = [Navigate (js "/upload/" ++ trim raw)])
  ∧ (trim raw = [] → LandingPage.handleSubmit st = [])
  ∧ (LandingPage.submitDisabled st = true ↔ trim raw = [])
  ∧ (Forall whiteSpace raw ↔ trim raw = [])
  ∧ (∃ l r, raw = l ++ trim raw ++ r
            ∧ Forall whiteSpace l ∧ Forall whiteSpace r)
  ∧ (∀ c, head (trim raw) = Some c ∨ last (trim raw) = Some c →
          ¬ whiteSpace c)
  ∧ trim (trim raw) = trim raw.
Proof.
  intros raw. unfold LandingPage.handleSubmit, LandingPage.submitDisabled.
  fold raw. repeat split.
  - intros [path Hin]. destruct (trim raw); [by apply elem_of_nil in Hin | done].
  - intros H. destruct (trim raw) eqn:E; [done |]. eexists. simpl. left.
  - intros H. by destruct (trim raw).
  - intros H. by rewrite H.
  - destruct (trim raw); [done | discriminate].
  - intros ->. done.
  - apply trim_whiteSpace.
  - apply trim_whiteSpace.
  - apply trim_split.
  - intros c [H | H]; [by apply trim_head in H | by apply trim_last in H].
  - apply trim_idemp.
Qed.

Lemma C10_landing_submit_trimmed_witness :
  LandingPage.handleSubmit {| LandingPage.siteId := js "  SITE-1 " |}
  = [Navigate (js "/upload/SITE-1")].
Proof.
  apply (C10_landing_submit_trimmed {| LandingPage.siteId := js "  SITE-1 " |}).
  vm_compute. discriminate.
Defined.

(** ** The rendered preview *)

(** The contract and the code sanitize alike. *)
Lemma allowed_inClass c : Contract.allowed c = Regex.inClass c.
Proof.
  unfold Contract.allowed, Regex.inClass.
  change (chr "A") with 65%N. change (chr "Z") with 90%N.
  change (chr "a") with 97%N. change (chr "z") with 122%N.
  change (chr "0") with 48%N. change (chr "9") with 57%N.
  change (chr "_") with 95%N. change (chr "-") with 45%N.
  apply eq_true_iff_eq.
  rewrite !orb_true_iff, !andb_true_iff, !bool_decide_eq_true, !N.leb_le,
    !N.eqb_eq.
  lia.
Qed.

Lemma sanitize_contract s : Contract.sanitize s = Regex.sanitize s.
Proof.
  unfold Contract.sanitize, Regex.sanitize. apply list_fmap_ext.
  intros _ c _. by rewrite allowed_inClass.
Qed.

Lemma sanitize_inClass s :
  Forall (fun c => Regex.inClass c = true) (Regex.sanitize s).
Proof.
  unfold Regex.sanitize. apply Forall_fmap, Forall_forall. intros c _. simpl.
  destruct (Regex.inClass c) eqn:Hc; [done | by vm_compute].
Qed.

Lemma sanitize_length s : length (Regex.sanitize s) = length s.
Proof. apply length_fmap. Qed.

Lemma sanitize_app s t :
  Regex.sanitize (s ++ t) = Regex.sanitize s ++ Regex.sanitize t.
Proof. apply fmap_app. Qed.

Lemma sanitize_fixed s :
  Forall (fun c => Regex.inClass c = true) s → Regex.sanitize s = s.
Proof.
  induction 1 as [|c s Hc _ IH]; [done |].
  unfold Regex.sanitize. rewrite fmap_cons, Hc. f_equal. exact IH.
Qed.

(** C1: whatever the format, the site id, the category and the component
    name are, the rendered filename consists of characters of
    [[A-Za-z0-9_-.]] only and is not empty; so does the preview computed
    from any state of the page. *)
Theorem C1_rendered_filename_safe :
  (∀ format siteId category componentName,
     Forall (fun c => filenameChar c = true)
       (UploadPage.renderPreview format siteId category componentName)
     ∧ UploadPage.renderPreview format siteId category componentName ≠ [])
  ∧ (∀ st,
       Forall (fun c => filenameChar c = true)
         (UploadPage.getPreviewFilename st)
       ∧ UploadPage.getPreviewFilename st ≠ []).
Proof.
  assert (∀ format siteId category componentName,
     Forall (fun c => filenameChar c = true)
       (UploadPage.renderPreview format siteId category componentName)
     ∧ UploadPage.renderPreview format siteId category componentName ≠ [])
    as H.
  { intros. unfold UploadPage.renderPreview. split.
    - apply Forall_app. split.
      + eapply Forall_impl; [apply sanitize_inClass |].
        intros c Hc. unfold filenameChar. by rewrite allowed_inClass, Hc.
      + by repeat constructor.
    - intros Habs. apply (f_equal length) in Habs.
      rewrite length_app in Habs. simpl in Habs. lia. }
  split; [exact H |]. intros st. apply H.
Qed.

(** ** The map of uploaded images *)

Lemma assign_lookup_eq key value obj :
  key ≠ js "__proto__" →
  UploadPage.assign key value obj !! key = Some value.
Proof.
  intros Hkey. unfold UploadPage.assign.
  rewrite decide_False by done. apply lookup_insert_eq.
Qed.

Lemma assign_lookup_ne key value obj name :
  key ≠ name →
  UploadPage.assign key value obj !! name = obj !! name.
Proof.
  intros Hne. unfold UploadPage.assign.
  destruct (decide _); [done |]. by apply lookup_insert_ne.
Qed.

Lemma assign_proto value obj :
  UploadPage.assign (js "__proto__") value obj = obj.
Proof. unfold UploadPage.assign. by rewrite decide_True. Qed.

Lemma imagesMap_snoc images img :
  UploadPage.imagesMap (images ++ [img])
  = UploadPage.assign (component_name img) (filename img)
      (UploadPage.imagesMap images).
Proof. unfold UploadPage.imagesMap. by rewrite foldl_app. Qed.

Lemma imagesMap_lookup_Some images name f :
  UploadPage.imagesMap images !! name = Some f →
  ∃ img, img ∈ images ∧ component_name img = name ∧ filename img = f
         ∧ name ≠ js "__proto__".
Proof.
  induction images as [|img images IH] using rev_ind.
  - unfold UploadPage.imagesMap. simpl. by rewrite lookup_empty.
  - rewrite imagesMap_snoc. intros H.
    assert (UploadPage.imagesMap images !! name = Some f →
            ∃ i, i ∈ images ++ [img] ∧ component_name i = name
                 ∧ filename i = f ∧ name ≠ js "__proto__") as Hearlier.
    { intros Hf. destruct (IH Hf) as (i & Hi & Hrest). exists i.
      split; [| done]. apply elem_of_app. by left. }
    destruct (decide (component_name img = name)) as [<- | Hne].
    + destruct (decide (component_name img = js "__proto__")) as [Hp | Hp].
      * rewrite Hp, assign_proto in H. rewrite Hp. rewrite Hp in Hearlier.
        by apply Hearlier.
      * rewrite assign_lookup_eq in H by done. injection H as <-.
        exists img. split; [| done].
        apply elem_of_app. right. by apply list_elem_of_singleton.
    + rewrite assign_lookup_ne in H by done. by apply Hearlier.
Qed.

(** An assignment never creates an own property [__proto__]. *)
Lemma imagesMap_proto images :
  UploadPage.imagesMap images !! js "__proto__" = None.
Proof.
  apply eq_None_not_Some. intros [f Hf].
  by apply imagesMap_lookup_Some in Hf as (_ & _ & _ & _ & Hp).
Qed.

Lemma imagesMap_is_Some images name :
  is_Some (UploadPage.imagesMap images !! name)
  ↔ name ∈ component_name <$> images ∧ name ≠ js "__proto__".
Proof.
  split.
  - intros [f Hf].
    apply imagesMap_lookup_Some in Hf as (i & Hi & <- & _ & Hp).
    split; [| done]. by apply list_elem_of_fmap_2.
  - intros [Hin Hp]. revert Hin.
    induction images as [|img images IH] using rev_ind.
    + simpl. intros H. by apply elem_of_nil in H.
    + rewrite fmap_app, imagesMap_snoc. simpl. intros H.
      destruct (decide (component_name img = name)) as [<- | Hne].
      * rewrite assign_lookup_eq by done. by eexists.
      * rewrite assign_lookup_ne by done. apply IH.
        apply elem_of_app in H as [H | H]; [done |].
        apply list_elem_of_singleton in H. congruence.
Qed.

Lemma imagesMap_last earlier img later :
  component_name img ≠ js "__proto__" →
  (∀ i, i ∈ later → component_name i ≠ component_name img) →
  UploadPage.imagesMap (earlier ++ img :: later) !! component_name img
  = Some (filename img).
Proof.
  intros Hp.
  induction later as [|x later IH] using rev_ind; intros Hlater.
  - rewrite imagesMap_snoc. by apply assign_lookup_eq.
  - replace (earlier ++ img :: later ++ [x])
      with ((earlier ++ img :: later) ++ [x]) by by rewrite <- app_assoc.
    rewrite imagesMap_snoc, assign_lookup_ne.
    + apply IH. intros i Hi. apply Hlater, elem_of_app. by left.
    + apply Hlater, elem_of_app. right. by apply list_elem_of_singleton.
Qed.

Lemma imagesMap_NoDup images img :
  NoDup (component_name <$> images) → img ∈ images →
  component_name img ≠ js "__proto__" →
  UploadPage.imagesMap images !! component_name img = Some (filename img).
Proof.
  intros Hnd Hin Hp. apply list_elem_of_split in Hin as (earlier & later & ->).
  apply imagesMap_last; [done |]. intros i Hi Heq.
  rewrite fmap_app in Hnd. apply NoDup_app in Hnd as (_ & _ & Hnd).
  simpl in Hnd. apply NoDup_cons in Hnd as [Hnot _]. apply Hnot.
  rewrite <- Heq. by apply list_elem_of_fmap_2.
Qed.

Lemma proto_member : js "__proto__" ∈ UploadPage.objectPrototypeMembers.
Proof. by_computation. Qed.

Lemma getProperty_own obj key s :
  obj !! key = Some s →
  UploadPage.getProperty obj key = Some (UploadPage.Str s).
Proof. intros H. unfold UploadPage.getProperty. by rewrite H. Qed.

Lemma getProperty_inherited obj key :
  obj !! key = None → key ∈ UploadPage.objectPrototypeMembers →
  UploadPage.getProperty obj key = Some (UploadPage.Inherited key).
Proof.
  intros H Hin. unfold UploadPage.getProperty. rewrite H.
  by rewrite decide_True.
Qed.

Lemma getProperty_undefined obj key :
  obj !! key = None → key ∉ UploadPage.objectPrototypeMembers →
  UploadPage.getProperty obj key = None.
Proof.
  intros H Hin. unfold UploadPage.getProperty. rewrite H.
  by rewrite decide_False.
Qed.

(** The three outcomes of [getImageUrl]. *)
Lemma getImageUrl_own BACKEND_URL nativeText st name f :
  UploadPage.uploadedImages st !! name = Some f →
  UploadPage.getImageUrl BACKEND_URL nativeText st name
  = if truthy f
    then Some (BACKEND_URL ++ js "/uploads/" ++ UploadPage.siteId st
                 ++ js "/" ++ UploadPage.activeCategory st ++ js "/" ++ f)
    else None.
Proof.
  intros H. unfold UploadPage.getImageUrl.
  by rewrite (getProperty_own _ _ _ H).
Qed.

Lemma getImageUrl_inherited BACKEND_URL nativeText st name :
  UploadPage.uploadedImages st !! name = None →
  name ∈ UploadPage.objectPrototypeMembers →
  UploadPage.getImageUrl BACKEND_URL nativeText st name
  = Some (BACKEND_URL ++ js "/uploads/" ++ UploadPage.siteId st
            ++ js "/" ++ UploadPage.activeCategory st ++ js "/"
            ++ UploadPage.toStringValue nativeText
                 (UploadPage.Inherited name)).
Proof.
  intros H Hin. unfold UploadPage.getImageUrl.
  by rewrite (getProperty_inherited _ _ H Hin).
Qed.

Lemma getImageUrl_undefined BACKEND_URL nativeText st name :
  UploadPage.uploadedImages st !! name = None →
  name ∉ UploadPage.objectPrototypeMembers →
  UploadPage.getImageUrl BACKEND_URL nativeText st name = None.
Proof.
  intros H Hin. unfold UploadPage.getImageUrl.
  by rewrite (getProperty_undefined _ _ H Hin).
Qed.

Lemma getImageUrl_None BACKEND_URL nativeText st name :
  UploadPage.getImageUrl BACKEND_URL nativeText st name = None
  ↔ (UploadPage.uploadedImages st !! name = None
     ∧ name ∉ UploadPage.objectPrototypeMembers)
    ∨ UploadPage.uploadedImages st !! name = Some [].
Proof.
  destruct (UploadPage.uploadedImages st !! name) as [[|c f]|] eqn:Hown.
  - rewrite (getImageUrl_own _ _ _ _ _ Hown). simpl.
    split; [by right | done].
  - rewrite (getImageUrl_own _ _ _ _ _ Hown). simpl.
    split; [done | by intros [[? _] | ?]].
  - destruct (decide (name ∈ UploadPage.objectPrototypeMembers)) as [Hin | Hin].
    + rewrite (getImageUrl_inherited _ _ _ _ Hown Hin).
      split; [done | by intros [[_ ?] | ?]].
    + rewrite (getImageUrl_undefined _ _ _ _ Hown Hin).
      split; [by left | done].
Qed.

(** C8: the object built by [fetchCategoryImages] is read and written
    through [Object.prototype], and there the code departs from the mapping
    of filled slots.  With no slot filled, [getImageUrl] still returns an
    address for the component name [constructor], and so it does for every
    name of a member of [Object.prototype] that has no key of its own; an
    image listed under [__proto__] gets no key, and its lookup yields the
    address of [[object Object]].  A key that holds an empty filename
    yields [null] although it is present.  For the other names the mapping
    is as claimed: a key exactly for the listed names, a listed filename
    under it, and, stored filenames being non-empty, [null] from
    [getImageUrl] exactly for the missing keys. *)
Theorem C8_images_map_of_filled_slots
    (BACKEND_URL category : jsString) (nativeText : jsString → jsString)
    (st : UploadPage.State) :
  let address file :=
    BACKEND_URL ++ js "/uploads/" ++ UploadPage.siteId st ++ js "/"
      ++ UploadPage.activeCategory st ++ js "/" ++ file in
  let load images :=
    (UploadPage.fetchCategoryImages category (Some images) st).1 in
  let stored images := UploadPage.uploadedImages (load images) in
  let url images name :=
    UploadPage.getImageUrl BACKEND_URL nativeText (load images) name in
  let hidden := {| component_name := js "__proto__"; filename := js "p.jpg" |} in
  (stored [] = ∅
   ∧ url [] (js "constructor")
     = Some (address (nativeText (js "constructor"))))
  ∧ (stored [hidden] = ∅
     ∧ url [hidden] (js "__proto__") = Some (address (js "[object Object]")))
  ∧ (∀ images, stored images !! js "__proto__" = None)
  ∧ (∀ images name,
       name ∈ UploadPage.objectPrototypeMembers →
       stored images !! name = None →
       url images name
       = Some (address (UploadPage.toStringValue nativeText
                          (UploadPage.Inherited name))))
  ∧ (∀ images name,
       stored images !! name = Some [] → url images name = None)
  ∧ (∀ images name,
       name ∉ UploadPage.objectPrototypeMembers →
       (is_Some (stored images !! name) ↔ name ∈ component_name <$> images)
       ∧ (stored images !! name = None ↔ name ∉ component_name <$> images)
       ∧ (∀ f, stored images !! name = Some f →
            ∃ img, img ∈ images ∧ component_name img = name
                   ∧ filename img = f)
       ∧ (NoDup (component_name <$> images) →
          ∀ img, img ∈ images → component_name img = name →
                 stored images !! name = Some (filename img))
       ∧ (Forall (fun img => filename img ≠ []) images →
          (url images name = None ↔ stored images !! name = None)
          ∧ (∀ f, stored images !! name = Some f →
               url images name = Some (address f)))).
Proof.
  intros address load stored url hidden.
  assert (∀ name, name ∉ UploadPage.objectPrototypeMembers →
                  name ≠ js "__proto__") as Hproto.
  { intros name Hname ->. apply Hname, proto_member. }
  split; [| split; [| split; [| split; [| split]]]].
  - split; [done |].
    unfold url. rewrite getImageUrl_inherited; [| done | by_computation].
    unfold UploadPage.toStringValue.
    by rewrite decide_False by by_computation.
  - assert (stored [hidden] = ∅) as Hnone by by vm_compute.
    split; [done |].
    unfold url. rewrite getImageUrl_inherited; [| | by_computation].
    + unfold UploadPage.toStringValue. by rewrite decide_True.
    + fold (stored [hidden]). by rewrite Hnone.
  - intros images. apply imagesMap_proto.
  - intros images name Hin Hnone. unfold url.
    by rewrite getImageUrl_inherited.
  - intros images name Hempty. unfold url.
    by rewrite (getImageUrl_own _ _ _ _ _ Hempty).
  - intros images name Hname. specialize (Hproto name Hname).
    assert (is_Some (stored images !! name)
            ↔ name ∈ component_name <$> images) as Hkey.
    { unfold stored. simpl. rewrite imagesMap_is_Some. tauto. }
    split; [exact Hkey |]. split; [| split; [| split]].
    + rewrite <- Hkey, eq_None_not_Some. tauto.
    + intros f Hf. apply imagesMap_lookup_Some in Hf as (i & ? & ? & ? & _).
      by exists i.
    + intros Hnd img Hin <-. by apply imagesMap_NoDup.
    + intros Hfiles. split.
      * unfold url. rewrite getImageUrl_None. split.
        -- intros [[Hnone _] | Hempty]; [done |].
           apply imagesMap_lookup_Some in Hempty as (i & Hi & _ & Hf & _).
           rewrite Forall_forall in Hfiles. by destruct (Hfiles i Hi).
        -- intros Hnone. by left.
      * intros f Hf. unfold url. rewrite (getImageUrl_own _ _ _ _ _ Hf).
        destruct f as [|c f]; [| done].
        apply imagesMap_lookup_Some in Hf as (i & Hi & _ & Hf' & _).
        rewrite Forall_forall in Hfiles. by destruct (Hfiles i Hi).
Qed.

(** C9: the map built by [fetchCategoryImages] is keyed by component name.
    When the answer lists several images under one component name, the map
    holds the filename of the last of them, whatever came earlier, and
    nothing else under that name; [getImageUrl] points to that file; the
    handler reports no error.  An image listed under another component name
    stays in the map beside it, also when the naming format renders both
    names to the same file name. *)
Theorem C9_later_entry_overwrites
    (BACKEND_URL category : jsString) (nativeText : jsString → jsString)
    (earlier later : list Image) (img : Image) (st : UploadPage.State) :
  component_name img ≠ js "__proto__" →
  (∀ i, i ∈ later → component_name i ≠ component_name img) →
  let images := earlier ++ img :: later in
  let result := UploadPage.fetchCategoryImages category (Some images) st in
  let stored := UploadPage.uploadedImages result.1 in
  stored !! component_name img = Some (filename img)
  ∧ (∀ old, old ∈ earlier → component_name old = component_name img →
       filename old ≠ filename img →
       stored !! component_name old ≠ Some (filename old))
  ∧ (filename img ≠ [] →
     UploadPage.getImageUrl BACKEND_URL nativeText result.1
       (component_name img)
     = Some (BACKEND_URL ++ js "/uploads/" ++ UploadPage.siteId st
               ++ js "/" ++ UploadPage.activeCategory st
               ++ js "/" ++ filename img))
  ∧ result.2 = []
  ∧ (∀ format before other between,
       earlier = before ++ other :: between →
       component_name other ≠ js "__proto__" →
       component_name other ≠ component_name img →
       (∀ i, i ∈ between ++ later →
             component_name i ≠ component_name other) →
       UploadPage.renderPreview format (UploadPage.siteId st) category
         (component_name other)
       = UploadPage.renderPreview format (UploadPage.siteId st) category
           (component_name img) →
       stored !! component_name other = Some (filename other)
       ∧ stored !! component_name img = Some (filename img)).
Proof.
  intros Hproto Hlater images result stored.
  assert (stored = UploadPage.imagesMap (earlier ++ img :: later))
    as Hstored by done.
  assert (stored !! component_name img = Some (filename img)) as Hlast.
  { rewrite Hstored. by apply imagesMap_last. }
  split; [exact Hlast |]. split; [| split; [| split; [done |]]].
  - intros old _ Hname Hfile. rewrite Hname, Hlast. congruence.
  - intros Hfile. rewrite (getImageUrl_own _ _ _ _ _ Hlast).
    by destruct (filename img).
  - intros format before other between Hearlier Hother Hne Hrest _.
    split; [| exact Hlast]. rewrite Hstored, Hearlier, <- app_assoc. simpl.
    apply (imagesMap_last before other (between ++ img :: later) Hother).
    intros i Hi. apply elem_of_app in Hi as [Hi | Hi].
    + apply Hrest, elem_of_app. by left.
    + apply elem_of_cons in Hi as [-> | Hi]; [done |].
      apply Hrest, elem_of_app. by right.
Qed.

Lemma C9_later_entry_overwrites_witness :
  let other := {| component_name := js "Mast"; filename := js "m.jpg" |} in
  let first := {| component_name := js "Tower"; filename := js "one.jpg" |} in
  let second := {| component_name := js "Tower"; filename := js "two.jpg" |} in
  let result :=
    UploadPage.fetchCategoryImages (js "alpha")
      (Some ([other; first] ++ second :: [])) (UploadPage.init (js "S1")) in
  let stored := UploadPage.uploadedImages result.1 in
  stored !! js "Tower" = Some (js "two.jpg")
  ∧ stored !! js "Tower" ≠ Some (js "one.jpg")
  ∧ UploadPage.getImageUrl (js "http://h") (fun _ => []) result.1 (js "Tower")
    = Some (js "http://h/uploads/S1/alpha/two.jpg")
  ∧ result.2 = []
  ∧ UploadPage.renderPreview (js "{site_id}") (js "S1") (js "alpha") (js "Mast")
    = UploadPage.renderPreview (js "{site_id}") (js "S1") (js "alpha")
        (js "Tower")
  ∧ stored !! js "Mast" = Some (js "m.jpg").
Proof.
  intros other first second result stored.
  pose proof (C9_later_entry_overwrites (js "http://h") (js "alpha")
                (fun _ => []) [other; first] [] second
                (UploadPage.init (js "S1")))
    as H.
  destruct H as (Hlast & Hold & Hurl & Hnone & Hother).
  - by vm_compute.
  - intros i Hi. by apply elem_of_nil in Hi.
  - assert (UploadPage.renderPreview (js "{site_id}") (js "S1") (js "alpha")
              (js "Mast")
            = UploadPage.renderPreview (js "{site_id}") (js "S1") (js "alpha")
                (js "Tower")) as Hsame by by vm_compute.
    split; [exact Hlast |]. split; [| split; [| split; [exact Hnone |]]].
    + apply (Hold first); [| done | by vm_compute].
      apply elem_of_cons. right. apply elem_of_cons. by left.
    + etransitivity; [apply Hurl; by vm_compute | by vm_compute].
    + split; [exact Hsame |].
      destruct (Hother (js "{site_id}") [] other [first]) as [Hkept _].
      * done.
      * by vm_compute.
      * by vm_compute.
      * intros i Hi. apply list_elem_of_singleton in Hi as ->. by vm_compute.
      * exact Hsame.
      * exact Hkept.
Defined.

(** C9, the claim as stated: two images listed under different component
    names that the naming format renders to the same file name.  The later
    one does not overwrite the earlier one: the map holds both, each under
    its component name. *)
Lemma C9_colliding_names_both_kept :
  let first := {| component_name := js "Tower"; filename := js "one.jpg" |} in
  let second := {| component_name := js "Mast"; filename := js "two.jpg" |} in
  let result :=
    UploadPage.fetchCategoryImages (js "alpha") (Some [first; second])
      (UploadPage.init (js "S1")) in
  let stored := UploadPage.uploadedImages result.1 in
  let rendered name :=
    UploadPage.renderPreview (js "{site_id}") (js "S1") (js "alpha") name in
  (rendered (component_name first) = js "S1.jpg"
   ∧ rendered (component_name second) = js "S1.jpg")
  ∧ stored !! component_name first = Some (filename first)
  ∧ stored !! component_name second = Some (filename second)
  ∧ size stored = 2
  ∧ stored ≠ {[ component_name second := filename second ]}.
Proof. by vm_compute. Qed.

(** ** The component editor and the registry *)

Lemma filterIndexNot_past index i names :
  (index < i)%nat → UploadPage.filterIndexNot index i names = names.
Proof.
  revert i. induction names as [|name rest IH]; intros i Hi; simpl; [done |].
  destruct (Nat.eqb_spec i index) as [-> | _]; [lia |].
  rewrite IH by lia. done.
Qed.

(** The filter of [handleRemoveComponent] deletes the entry at [index], and
    nothing when there is no such entry. *)
Lemma filterIndexNot_delete index i names :
  (i ≤ index)%nat →
  UploadPage.filterIndexNot index i names = delete (index - i)%nat names.
Proof.
  revert i. induction names as [|name rest IH]; intros i Hi; simpl; [done |].
  destruct (Nat.eqb_spec i index) as [-> | Hne].
  - rewrite Nat.sub_diag. simpl. apply filterIndexNot_past. lia.
  - rewrite IH by lia. replace (index - i)%nat with (S (index - S i)) by lia.
    done.
Qed.

Lemma removed_nonempty index (names : list jsString) :
  (2 ≤ length names)%nat → delete index names ≠ [].
Proof.
  intros Hlen Habs. apply (f_equal length) in Habs.
  rewrite delete_take_drop, length_app, length_take, length_drop in Habs.
  simpl in Habs. lia.
Qed.

(** C6: [replaceComponents] applied to the empty sequence fails with
    [EmptyTaxonomyError] and leaves the registry as it was, so that
    [listComponents] still returns the previous list; a Save of an empty
    editor list is answered by that failure and changes neither the
    registry nor the component names of the page.  [handleRemoveComponent]
    on a list of at most one entry only shows the error toast; on a longer
    list it deletes the entry at the index; it never turns a non-empty list
    into an empty one, and no sequence of replacements empties a non-empty
    registry. *)
Theorem C6_component_list_never_emptied :
  (∀ reg,
     Registry.replaceComponents [] reg = (inl Registry.EmptyTaxonomyError, reg)
     ∧ Registry.listComponents (Registry.replaceComponents [] reg).2
       = Registry.listComponents reg)
  ∧ (∀ st reg,
       UploadPage.editableNames st = [] →
       Registry.saveComponentNames st reg
       = (st, [ConsoleError (js "Error updating component names:");
               ToastError (js "Failed to update component names")], reg))
  ∧ (∀ st index,
       (length (UploadPage.editableNames st) ≤ 1)%nat →
       UploadPage.handleRemoveComponent index st
       = (st, [ToastError (js "Must have at least one component")]))
  ∧ (∀ st index,
       (2 ≤ length (UploadPage.editableNames st))%nat →
       UploadPage.editableNames (UploadPage.handleRemoveComponent index st).1
       = delete index (UploadPage.editableNames st))
  ∧ (∀ st index,
       UploadPage.editableNames st ≠ [] →
       UploadPage.editableNames (UploadPage.handleRemoveComponent index st).1
       ≠ [])
  ∧ (∀ replacements reg,
       Registry.listComponents reg ≠ [] →
       Registry.listComponents
         (foldl (fun r names => (Registry.replaceComponents names r).2)
            reg replacements)
       ≠ []).
Proof.
  repeat split.
  - intros st reg Hempty. unfold Registry.saveComponentNames,
      Registry.putComponentNames. by rewrite Hempty.
  - intros st index Hlen. unfold UploadPage.handleRemoveComponent.
    destruct (Nat.leb_spec (length (UploadPage.editableNames st)) 1);
      [done | lia].
  - intros st index Hlen. unfold UploadPage.handleRemoveComponent.
    destruct (Nat.leb_spec (length (UploadPage.editableNames st)) 1);
      [lia |].
    simpl. rewrite filterIndexNot_delete by lia. by rewrite Nat.sub_0_r.
  - intros st index Hne. unfold UploadPage.handleRemoveComponent.
    destruct (Nat.leb_spec (length (UploadPage.editableNames st)) 1);
      [done |].
    simpl. rewrite filterIndexNot_delete by lia. rewrite Nat.sub_0_r.
    apply removed_nonempty. lia.
  - intros replacements.
    induction replacements as [|names replacements IH]; intros reg Hreg;
      simpl; [done |].
    apply IH. destruct names; simpl; [done | discriminate].
Qed.

Lemma C6_component_list_never_emptied_witness :
  let st :=
    UploadPage.setEditableNames [js "Tower"] (UploadPage.init (js "S1")) in
  UploadPage.handleRemoveComponent 0 st
  = (st, [ToastError (js "Must have at least one component")])
  ∧ UploadPage.editableNames
      (UploadPage.handleRemoveComponent 1
         (UploadPage.setEditableNames [js "Tower"; js "Mast"] st)).1
    = [js "Tower"].
Proof.
  intros st.
  destruct C6_component_list_never_emptied as (_ & _ & Hone & Hmany & _).
  split.
  - apply (Hone st 0%nat). simpl. lia.
  - rewrite (Hmany (UploadPage.setEditableNames [js "Tower"; js "Mast"] st)
               1%nat); [reflexivity |].
    simpl. lia.
Defined.

(** ** Categories *)

Lemma orElse_nonempty a b : b ≠ [] → UploadPage.orElse a b ≠ [].
Proof.
  intros Hb. unfold UploadPage.orElse.
  destruct a as [[|c s]|]; simpl; done.
Qed.

Lemma capitalize_categoryIds category :
  category ∈ UploadPage.categoryIds →
  capitalize category ∈ [js "Alpha"; js "Beta"; js "Gamma"].
Proof.
  unfold UploadPage.categoryIds. intros H.
  rewrite !elem_of_cons, elem_of_nil in H.
  destruct H as [-> | [-> | [-> | []]]]; rewrite !elem_of_cons;
    vm_compute; auto.
Qed.

Lemma handle_activeCategory st e :
  UploadPage.offered st e →
  UploadPage.activeCategory (UploadPage.handle e st).1
  = UploadPage.activeCategory st
  ∨ UploadPage.activeCategory (UploadPage.handle e st).1
    ∈ UploadPage.categoryIds.
Proof.
  intros Hoff. destruct e; simpl in *;
    unfold UploadPage.fetchComponentNames, UploadPage.fetchCategoryNames,
      UploadPage.fetchNamingFormat, UploadPage.handleDrop,
      UploadPage.handleFileSelect, UploadPage.fetchCategoryImages,
      UploadPage.handleDownload, UploadPage.handleRemoveComponent,
      UploadPage.handleSaveComponentNames,
      UploadPage.handleSaveCategoryNames,
      UploadPage.handleSaveNamingFormat;
    repeat case_match; simplify_eq; simpl; auto.
Qed.

Lemma reachable_activeCategory siteId st :
  UploadPage.reachable siteId st →
  UploadPage.activeCategory st ∈ UploadPage.categoryIds.
Proof.
  unfold UploadPage.reachable. intros Hreach.
  eapply (rtc_ind_r
            (fun s => UploadPage.activeCategory s ∈ UploadPage.categoryIds));
    [| | exact Hreach].
  - simpl. apply elem_of_cons. by left.
  - intros s s' _ [e Hoff] IH.
    destruct (handle_activeCategory s e Hoff) as [-> | Hin]; done.
Qed.

(** C7: the tab bar and the category editor enumerate the three
    identifiers alpha, beta and gamma in every state, and the active
    category of every reachable state is one of them.  Each of the three
    gets a non-empty label: the stored one when there is a non-empty one,
    the capitalized identifier (Alpha, Beta, Gamma) otherwise.  Editing a
    label in the editor changes the label stored under that identifier and
    nothing else: no other label, not the identifiers listed, not the
    labels shown until saved; saving replaces the labels and leaves the
    identifiers of the tabs as they are. *)
Theorem C7_three_fixed_categories :
  UploadPage.categoryIds = [js "alpha"; js "beta"; js "gamma"]
  ∧ (∀ st, (UploadPage.categoryTabs st).*1 = UploadPage.categoryIds
           ∧ (UploadPage.categoryInputs st).*1 = UploadPage.categoryIds)
  ∧ (∀ siteId st, UploadPage.reachable siteId st →
       UploadPage.activeCategory st ∈ UploadPage.categoryIds)
  ∧ (∀ st category, category ∈ UploadPage.categoryIds →
       UploadPage.tabLabel st category ≠ []
       ∧ (∀ label, UploadPage.categoryNames st !! category = Some label →
            label ≠ [] → UploadPage.tabLabel st category = label)
       ∧ (UploadPage.categoryNames st !! category = None
          ∨ UploadPage.categoryNames st !! category = Some [] →
          UploadPage.tabLabel st category = capitalize category)
       ∧ capitalize category ∈ [js "Alpha"; js "Beta"; js "Gamma"])
  ∧ (∀ st key value,
       let st' := UploadPage.changeCategoryName key value st in
       UploadPage.editableCategoryNames st' !! key = Some value
       ∧ (∀ other, other ≠ key →
            UploadPage.editableCategoryNames st' !! other
            = UploadPage.editableCategoryNames st !! other)
       ∧ (UploadPage.categoryInputs st').*1 = UploadPage.categoryIds
       ∧ UploadPage.categoryTabs st' = UploadPage.categoryTabs st
       ∧ UploadPage.activeCategory st' = UploadPage.activeCategory st)
  ∧ (∀ st result,
       let st' := (UploadPage.handleSaveCategoryNames result st).1 in
       (UploadPage.categoryTabs st').*1 = UploadPage.categoryIds
       ∧ UploadPage.activeCategory st' = UploadPage.activeCategory st
       ∧ (result = UploadPage.PutOk →
          UploadPage.categoryNames st' = UploadPage.editableCategoryNames st)).
Proof.
  split; [reflexivity |]. split; [by intros st |].
  split; [apply reachable_activeCategory |].
  split; [| split].
  - intros st category Hin. unfold UploadPage.tabLabel.
    pose proof (capitalize_categoryIds category Hin) as Hcap.
    assert (capitalize category ≠ []) as Hne.
    { rewrite !elem_of_cons, elem_of_nil in Hcap.
      destruct Hcap as [-> | [-> | [-> | []]]]; discriminate. }
    split; [by apply orElse_nonempty |].
    split; [| split; [| exact Hcap]].
    + intros label -> Hlabel. by destruct label.
    + by intros [-> | ->].
  - intros st key value. simpl. split; [apply lookup_insert_eq |].
    split; [| done]. intros other Hother. by apply lookup_insert_ne.
  - intros st result. destruct result; simpl; [| done].
    split; [done |]. split; [done |]. done.
Qed.

Lemma C7_three_fixed_categories_witness :
  let labels := <[js "alpha" := js "North"]> (<[js "beta" := []]> ∅) in
  let st :=
    (UploadPage.handle (UploadPage.CategoryNamesLoaded (Some labels))
       (UploadPage.init (js "S1"))).1 in
  UploadPage.categoryTabs st
  = [(js "alpha", js "North"); (js "beta", js "Beta");
     (js "gamma", js "Gamma")]
  ∧ UploadPage.activeCategory
      (UploadPage.handle (UploadPage.TabClicked (js "gamma")) st).1
    ∈ UploadPage.categoryIds.
Proof.
  intros labels st.
  destruct C7_three_fixed_categories as (_ & _ & Hreach & Hlabel & _).
  split.
  - unfold UploadPage.categoryTabs, UploadPage.categoryIds.
    rewrite !fmap_cons, fmap_nil.
    destruct (Hlabel st (js "alpha")) as (_ & Ha & _).
    { apply elem_of_cons. by left. }
    destruct (Hlabel st (js "beta")) as (_ & _ & Hb & _).
    { apply elem_of_cons. right. apply elem_of_cons. by left. }
    destruct (Hlabel st (js "gamma")) as (_ & _ & Hc & _).
    { do 2 (apply elem_of_cons; right). apply elem_of_cons. by left. }
    rewrite (Ha (js "North")), Hb, Hc; first reflexivity.
    + left. by vm_compute.
    + right. by vm_compute.
    + by vm_compute.
    + discriminate.
  - apply (Hreach (js "S1")). unfold UploadPage.reachable.
    apply rtc_l with (y := st).
    + apply (UploadPage.step_event (UploadPage.init (js "S1"))
               (UploadPage.CategoryNamesLoaded (Some labels))).
      exact I.
    + apply rtc_once.
      apply (UploadPage.step_event st (UploadPage.TabClicked (js "gamma"))).
      simpl. do 2 (apply elem_of_cons; right). apply elem_of_cons. by left.
Defined.

(** ** Replacing a placeholder *)

Lemma token_unfold name : token name = chr "{" :: name ++ [chr "}"].
Proof. reflexivity. Qed.

Lemma token_app name s :
  token name ++ s = chr "{" :: name ++ chr "}" :: s.
Proof. rewrite token_unfold. simpl. by rewrite <- app_assoc. Qed.

Lemma token_length name : length (token name) = S (S (length name)).
Proof. rewrite token_unfold. simpl. rewrite length_app. simpl. lia. Qed.

Lemma token_tail_drop name s :
  drop (Nat.pred (length (token name))) ((name ++ [chr "}"]) ++ s) = s.
Proof.
  rewrite token_length. simpl.
  replace (S (length name)) with (length (name ++ [chr "}"]))
    by (rewrite length_app; simpl; lia).
  apply drop_app_length.
Qed.

Lemma braceFree_no_open s : braceFree s → chr "{" ∉ s.
Proof. by intros [? _]. Qed.

Lemma braceFree_no_close s : braceFree s → chr "}" ∉ s.
Proof. by intros [_ ?]. Qed.

Lemma braceFree_tail name : braceFree name → chr "{" ∉ name ++ [chr "}"].
Proof.
  intros [Hopen _]. apply not_elem_of_app. split; [done |].
  apply not_elem_of_cons. split; [done | apply not_elem_of_nil].
Qed.

(** A token at the head of a text is the only token that matches there. *)
Lemma token_prefix_token p n s :
  braceFree p → braceFree n → token p `prefix_of` token n ++ s → p = n.
Proof.
  intros [_ Hp] [_ Hn] Hpre. rewrite token_app, token_unfold in Hpre.
  apply prefix_cons_inv_2 in Hpre.
  by apply prefix_not_elem_of_app_cons_inv in Hpre as [-> _].
Qed.

(** A match that starts in front of a token ends in front of it. *)
Lemma token_prefix_before p s1 n s2 :
  braceFree p → s1 ≠ [] → token p `prefix_of` s1 ++ token n ++ s2 →
  ∃ rest, s1 = token p ++ rest.
Proof.
  intros [Hp _] Hne [k Hk]. destruct s1 as [|c s1]; [done |].
  rewrite !token_app in Hk. simpl in Hk. injection Hk as -> Hk.
  clear Hne. revert s1 Hk.
  induction p as [|a p IH]; intros s1 Hk; simpl in Hk.
  - destruct s1 as [|d s1]; simpl in Hk; [discriminate |].
    injection Hk as -> _. exists s1. by rewrite token_app.
  - apply not_elem_of_cons in Hp as [Ha Hp].
    destruct s1 as [|d s1]; simpl in Hk.
    + injection Hk as Hk _. by destruct Ha.
    + injection Hk as -> Hk. destruct (IH Hp s1 Hk) as [rest Hrest].
      exists rest. rewrite token_app in *. simpl. by injection Hrest as ->.
Qed.

Lemma replaceFrom_cons pat rep before c s' :
  Regex.replaceFrom pat rep before (c :: s')
  = if decide (pat `prefix_of` c :: s') then
      Regex.getSubstitution pat before (drop (length pat) (c :: s')) rep
        ++ Regex.replaceFrom pat rep (before ++ pat)
             (drop (Nat.pred (length pat)) s')
    else c :: Regex.replaceFrom pat rep (before ++ [c]) s'.
Proof. simp replaceFrom. by destruct (decide _). Qed.

Lemma replaceAll_nil pat rep : Regex.replaceAll pat rep [] = [].
Proof. unfold Regex.replaceAll. by simp replaceFrom. Qed.

Lemma getSubstitution_dollarFree matched before after rep :
  dollarFree rep → Regex.getSubstitution matched before after rep = rep.
Proof.
  unfold dollarFree. induction rep as [|c rep IH]; intros Hrep; [done |].
  apply not_elem_of_cons in Hrep as [Hc Hrep]. simpl.
  destruct (N.eqb_spec c (chr "$")) as [-> | _]; [by destruct Hc |].
  by rewrite IH.
Qed.

(** Without a dollar sign in the replacement text, the text in front of
    the match plays no part. *)
Lemma replaceFrom_before pat rep s :
  dollarFree rep →
  ∀ before1 before2,
    Regex.replaceFrom pat rep before1 s = Regex.replaceFrom pat rep before2 s.
Proof.
  intros Hrep. remember (length s) as m eqn:Hm. revert s Hm.
  induction m as [m IH] using lt_wf_ind. intros s Hm before1 before2.
  destruct s as [|c s]; [by simp replaceFrom |].
  rewrite !replaceFrom_cons. destruct (decide _) as [_ | _].
  - rewrite !getSubstitution_dollarFree by done. f_equal.
    eapply IH; [| reflexivity]. rewrite Hm, length_drop. simpl. lia.
  - f_equal. eapply IH; [| reflexivity]. rewrite Hm. simpl. lia.
Qed.

Section Placeholder.

(** One [replace] call of the source: the placeholder is the token of [p],
    the replacement text is [rep]. *)
Variables p rep : jsString.
Hypothesis p_braceFree : braceFree p.

(** Text without an opening brace is copied. *)
Lemma replaceFrom_text before text s :
  chr "{" ∉ text →
  Regex.replaceFrom (token p) rep before (text ++ s)
  = text ++ Regex.replaceFrom (token p) rep (before ++ text) s.
Proof.
  revert before. induction text as [|c text IH]; intros before Htext; simpl.
  - by rewrite app_nil_r.
  - apply not_elem_of_cons in Htext as [Hc Htext].
    rewrite replaceFrom_cons. destruct (decide _) as [Hpre | _].
    + rewrite token_unfold in Hpre. apply prefix_cons_inv_1 in Hpre.
      by destruct Hc.
    + rewrite IH by done. by rewrite <- app_assoc.
Qed.

(** The placeholder itself is replaced by the expansion of the
    replacement text. *)
Lemma replaceFrom_placeholder before s :
  Regex.replaceFrom (token p) rep before (token p ++ s)
  = Regex.getSubstitution (token p) before s rep
      ++ Regex.replaceFrom (token p) rep (before ++ token p) s.
Proof.
  assert (token p ++ s = chr "{" :: (p ++ [chr "}"]) ++ s) as Heq
    by by rewrite token_unfold.
  rewrite Heq at 1. rewrite replaceFrom_cons. rewrite <- Heq.
  destruct (decide _) as [_ | Hnot].
  - by rewrite drop_app_length, token_tail_drop.
  - destruct Hnot. by apply prefix_app_r.
Qed.

(** Any other token is copied. *)
Lemma replaceFrom_other_token before n s :
  braceFree n → n ≠ p →
  Regex.replaceFrom (token p) rep before (token n ++ s)
  = token n ++ Regex.replaceFrom (token p) rep (before ++ token n) s.
Proof.
  intros Hn Hne.
  assert (token n ++ s = chr "{" :: (n ++ [chr "}"]) ++ s) as Heq
    by by rewrite token_unfold.
  rewrite Heq at 1. rewrite replaceFrom_cons. rewrite <- Heq.
  destruct (decide _) as [Hpre | _].
  - apply token_prefix_token in Hpre; [congruence | done | done].
  - rewrite replaceFrom_text by by apply braceFree_tail.
    rewrite token_unfold. simpl. by rewrite <- !app_assoc.
Qed.

(** A token that is not the placeholder stays where it is, whatever the
    replacement text expands to around it. *)
Lemma replaceFrom_keeps_token n s2 :
  braceFree n → n ≠ p →
  ∀ s1 before, ∃ X,
    Regex.replaceFrom (token p) rep before (s1 ++ token n ++ s2)
    = X ++ token n
        ++ Regex.replaceFrom (token p) rep (before ++ s1 ++ token n) s2.
Proof.
  intros Hn Hne s1.
  remember (length s1) as m eqn:Hm. revert s1 Hm.
  induction m as [m IH] using lt_wf_ind. intros s1 Hm before.
  destruct (decide (s1 = [])) as [-> | Hs1].
  { exists []. simpl. by apply replaceFrom_other_token. }
  destruct (decide (token p `prefix_of` s1 ++ token n ++ s2)) as [Hpre | Hnot].
  - destruct (token_prefix_before p s1 n s2 p_braceFree Hs1 Hpre)
      as [rest ->].
    rewrite <- app_assoc, replaceFrom_placeholder.
    destruct (IH (length rest)) with (s1 := rest) (before := before ++ token p)
      as [X HX]; [rewrite Hm, length_app, token_length; lia | done |].
    exists (Regex.getSubstitution (token p) before
              (rest ++ token n ++ s2) rep ++ X).
    rewrite HX, <- !app_assoc. reflexivity.
  - destruct s1 as [|c s1]; [done |]. simpl in *.
    rewrite replaceFrom_cons. destruct (decide _) as [? | _]; [done |].
    destruct (IH (length s1)) with (s1 := s1) (before := before ++ [c])
      as [X HX]; [lia | done |].
    exists (c :: X). rewrite HX, <- !app_assoc. reflexivity.
Qed.

Lemma replaceAll_keeps_token n s1 s2 :
  braceFree n → n ≠ p →
  ∃ X Y, Regex.replaceAll (token p) rep (s1 ++ token n ++ s2)
         = X ++ token n ++ Y.
Proof.
  intros Hn Hne. unfold Regex.replaceAll.
  destruct (replaceFrom_keeps_token n s2 Hn Hne s1 []) as [X HX]. eauto.
Qed.

(** The same without a dollar sign in the replacement text: the call
    goes through text, placeholders and other tokens one after the
    other. *)
Hypothesis rep_dollarFree : dollarFree rep.

Lemma replaceAll_text text s :
  chr "{" ∉ text →
  Regex.replaceAll (token p) rep (text ++ s)
  = text ++ Regex.replaceAll (token p) rep s.
Proof.
  intros Htext. unfold Regex.replaceAll.
  rewrite replaceFrom_text by done. f_equal. by apply replaceFrom_before.
Qed.

Lemma replaceAll_placeholder s :
  Regex.replaceAll (token p) rep (token p ++ s)
  = rep ++ Regex.replaceAll (token p) rep s.
Proof.
  unfold Regex.replaceAll.
  rewrite replaceFrom_placeholder, getSubstitution_dollarFree by done.
  f_equal. by apply replaceFrom_before.
Qed.

Lemma replaceAll_other_token n s :
  braceFree n → n ≠ p →
  Regex.replaceAll (token p) rep (token n ++ s)
  = token n ++ Regex.replaceAll (token p) rep s.
Proof.
  intros Hn Hne. unfold Regex.replaceAll.
  rewrite replaceFrom_other_token by done. f_equal.
  by apply replaceFrom_before.
Qed.

Lemma replaceAll_around_token n s1 s2 :
  braceFree n → n ≠ p →
  Regex.replaceAll (token p) rep (s1 ++ token n ++ s2)
  = Regex.replaceAll (token p) rep s1 ++ token n
      ++ Regex.replaceAll (token p) rep s2.
Proof.
  intros Hn Hne.
  remember (length s1) as m eqn:Hm. revert s1 Hm.
  induction m as [m IH] using lt_wf_ind. intros s1 Hm.
  destruct (decide (s1 = [])) as [-> | Hs1].
  { rewrite replaceAll_nil. simpl. by apply replaceAll_other_token. }
  destruct (decide (token p `prefix_of` s1 ++ token n ++ s2)) as [Hpre | Hnot].
  - destruct (token_prefix_before p s1 n s2 p_braceFree Hs1 Hpre)
      as [rest ->].
    rewrite <- app_assoc, !replaceAll_placeholder.
    rewrite (IH (length rest)); [by rewrite <- app_assoc | | done].
    rewrite Hm, length_app, token_length. lia.
  - destruct s1 as [|c s1]; [done |]. simpl in *.
    unfold Regex.replaceAll in *. rewrite !replaceFrom_cons.
    destruct (decide _) as [? | _]; [done |].
    destruct (decide _) as [Hpre | _].
    { destruct Hnot. by apply prefix_app_r with (l3 := token n ++ s2) in Hpre. }
    simpl. f_equal.
    rewrite (replaceFrom_before _ _ (s1 ++ _) rep_dollarFree _ []).
    rewrite (replaceFrom_before _ _ s1 rep_dollarFree _ []).
    apply (IH (length s1)); [lia | done].
Qed.

(** On a well-braced format the call replaces the placeholder tokens
    and nothing else. *)
Lemma replaceAll_formatOf pieces :
  wellBraced pieces →
  Regex.replaceAll (token p) rep (formatOf pieces)
  = formatOf (substPiece p rep <$> pieces).
Proof.
  induction 1 as [|piece pieces Hpiece _ IH]; [apply replaceAll_nil |].
  rewrite fmap_cons. unfold formatOf in *. rewrite !fmap_cons. simpl concat.
  destruct piece as [text | n]; cbn [pieceText substPiece].
  - rewrite replaceAll_text by by apply braceFree_no_open. by rewrite IH.
  - destruct (decide (n = p)) as [-> | Hne]; cbn [pieceText].
    + rewrite replaceAll_placeholder. by rewrite IH.
    + rewrite replaceAll_other_token by done. by rewrite IH.
Qed.

End Placeholder.

(** ** Formats made of text and tokens *)

Lemma formatOf_cons p pieces :
  formatOf (p :: pieces) = pieceText p ++ formatOf pieces.
Proof. reflexivity. Qed.

Lemma substPiece_wellBraced name value pieces :
  braceFree value → wellBraced pieces →
  wellBraced (substPiece name value <$> pieces).
Proof.
  intros Hvalue Hpieces. apply Forall_fmap. eapply Forall_impl; [done |].
  intros [text | n] Hp; simpl; [done |]. by destruct (decide _).
Qed.

Lemma recognized_braceFree name : name ∈ recognized → braceFree name.
Proof.
  unfold recognized. rewrite !elem_of_cons, elem_of_nil.
  intros [-> | [-> | [-> | []]]]; split; by_computation.
Qed.

(** The three [replace] calls on a well-braced format, for values without
    dollar signs and, for the first two, without braces: every recognized
    token becomes its value and everything else stays. *)
Lemma substitutePlaceholders_formatOf pieces siteId category componentName :
  wellBraced pieces →
  dollarFree siteId → braceFree siteId →
  dollarFree category → braceFree category →
  dollarFree componentName →
  UploadPage.substitutePlaceholders (formatOf pieces) siteId category
    componentName
  = concat (bindPiece {| Contract.site := siteId;
                         Contract.category := category;
                         Contract.component := componentName |} <$> pieces).
Proof.
  intros Hpieces Hs1 Hs2 Hc1 Hc2 Hn1. unfold UploadPage.substitutePlaceholders.
  change (js "{site_id}") with (token (js "site_id")).
  change (js "{category}") with (token (js "category")).
  change (js "{component_name}") with (token (js "component_name")).
  pose proof (substPiece_wellBraced (js "site_id") siteId pieces Hs2 Hpieces)
    as Hpieces1.
  pose proof (substPiece_wellBraced (js "category") category _ Hc2 Hpieces1)
    as Hpieces2.
  rewrite !replaceAll_formatOf;
    [| done || (apply recognized_braceFree; by_computation)..].
  unfold formatOf. f_equal. rewrite <- !list_fmap_compose.
  apply list_fmap_ext. intros _ [text | n] _; simpl; [done |].
  destruct (decide (n = js "site_id")) as [-> | H1]; simpl; [done |].
  destruct (decide (n = js "category")) as [-> | H2]; simpl; [done |].
  by destruct (decide (n = js "component_name")) as [-> | H3]; simpl.
Qed.

(** ** The renderer of the contract *)

Lemma substitute_cons b c s' :
  Contract.substitute b (c :: s')
  = match Contract.tokenAt b (c :: s') with
    | Some p =>
        p.2 ++ Contract.substitute b (drop (Nat.pred (length p.1)) s')
    | None => c :: Contract.substitute b s'
    end.
Proof. simp substitute. by destruct (Contract.tokenAt b (c :: s')). Qed.

Lemma tokenAt_text b c s : c ≠ chr "{" → Contract.tokenAt b (c :: s) = None.
Proof.
  intros Hc. unfold Contract.tokenAt, Contract.placeholders. simpl.
  rewrite !bool_decide_eq_false_2; [done | ..];
    intros Hpre; apply prefix_cons_inv_1 in Hpre; by destruct Hc.
Qed.

Lemma tokenAt_token b n s :
  braceFree n →
  Contract.tokenAt b (token n ++ s)
  = if decide (n = js "site_id") then
      Some (token (js "site_id"), Contract.site b)
    else if decide (n = js "category") then
      Some (token (js "category"), Contract.category b)
    else if decide (n = js "component_name") then
      Some (token (js "component_name"), Contract.component b)
    else None.
Proof.
  intros Hn. unfold Contract.tokenAt, Contract.placeholders.
  change (js "{site_id}") with (token (js "site_id")).
  change (js "{category}") with (token (js "category")).
  change (js "{component_name}") with (token (js "component_name")).
  assert (∀ p, p ∈ recognized →
               bool_decide (token p `prefix_of` token n ++ s)
               = bool_decide (n = p)) as Hdec.
  { intros p Hp. apply recognized_braceFree in Hp.
    apply bool_decide_ext. split.
    - intros Hpre. symmetry. by apply (token_prefix_token p n s).
    - intros ->. by apply prefix_app_r. }
  simpl. rewrite !Hdec by by_computation.
  repeat (case_bool_decide; case_decide; try done).
Qed.

Lemma substitute_text b text s :
  chr "{" ∉ text →
  Contract.substitute b (text ++ s) = text ++ Contract.substitute b s.
Proof.
  induction text as [|c text IH]; intros Htext; simpl; [done |].
  apply not_elem_of_cons in Htext as [Hc Htext].
  rewrite substitute_cons, tokenAt_text by done. by rewrite IH.
Qed.

Lemma substitute_token b n s :
  braceFree n →
  Contract.substitute b (token n ++ s)
  = bindPiece b (Token n) ++ Contract.substitute b s.
Proof.
  intros Hn.
  assert (token n ++ s = chr "{" :: (n ++ [chr "}"]) ++ s) as Heq
    by by rewrite token_unfold.
  rewrite Heq at 1. rewrite substitute_cons, <- Heq, tokenAt_token by done.
  simpl. repeat case_decide; subst; simpl; rewrite ?token_tail_drop;
    try done.
  by rewrite substitute_text by by apply braceFree_tail.
Qed.

(** On a well-braced format the contract binds every piece on its own. *)
Lemma substitute_formatOf b pieces :
  wellBraced pieces →
  Contract.substitute b (formatOf pieces) = concat (bindPiece b <$> pieces).
Proof.
  induction 1 as [|p pieces Hp _ IH]; [by simp substitute |].
  rewrite fmap_cons, formatOf_cons. simpl concat. destruct p as [text | n].
  - destruct Hp as [Hp _]. simpl. rewrite substitute_text by done.
    by rewrite IH.
  - simpl pieceText. rewrite substitute_token by done. by rewrite IH.
Qed.

(** ** Tokens that are no placeholders *)

Lemma sanitize_token name :
  Regex.sanitize (token name) = js "_" ++ Regex.sanitize name ++ js "_".
Proof.
  rewrite token_unfold. unfold Regex.sanitize.
  by rewrite fmap_cons, fmap_app.
Qed.

Lemma substitutePlaceholders_keeps_token
    pre name post siteId category componentName :
  braceFree name → name ∉ recognized →
  ∃ X Y,
    UploadPage.substitutePlaceholders (pre ++ token name ++ post) siteId
      category componentName
    = X ++ token name ++ Y.
Proof.
  intros Hname Hnot. unfold UploadPage.substitutePlaceholders.
  change (js "{site_id}") with (token (js "site_id")).
  change (js "{category}") with (token (js "category")).
  change (js "{component_name}") with (token (js "component_name")).
  assert (∀ p, p ∈ recognized → braceFree p ∧ name ≠ p) as Hp.
  { intros p Hin. split; [by apply recognized_braceFree | congruence]. }
  destruct (Hp (js "site_id")) as [Hb1 Hn1]; [by_computation |].
  destruct (Hp (js "category")) as [Hb2 Hn2]; [by_computation |].
  destruct (Hp (js "component_name")) as [Hb3 Hn3]; [by_computation |].
  destruct (replaceAll_keeps_token (js "site_id") siteId Hb1 name pre post)
    as (X1 & Y1 & ->); [done.. |].
  destruct (replaceAll_keeps_token (js "category") category Hb2 name X1 Y1)
    as (X2 & Y2 & ->); [done.. |].
  apply replaceAll_keeps_token; done.
Qed.

Lemma substitutePlaceholders_around_token
    pre name post siteId category componentName :
  braceFree name → name ∉ recognized →
  dollarFree siteId → dollarFree category → dollarFree componentName →
  UploadPage.substitutePlaceholders (pre ++ token name ++ post) siteId
    category componentName
  = UploadPage.substitutePlaceholders pre siteId category componentName
      ++ token name
      ++ UploadPage.substitutePlaceholders post siteId category componentName.
Proof.
  intros Hname Hnot Hs Hc Hn. unfold UploadPage.substitutePlaceholders.
  change (js "{site_id}") with (token (js "site_id")).
  change (js "{category}") with (token (js "category")).
  change (js "{component_name}") with (token (js "component_name")).
  assert (∀ p, p ∈ recognized → braceFree p ∧ name ≠ p) as Hp.
  { intros p Hin. split; [by apply recognized_braceFree | congruence]. }
  destruct (Hp (js "site_id")) as [Hb1 Hn1]; [by_computation |].
  destruct (Hp (js "category")) as [Hb2 Hn2]; [by_computation |].
  destruct (Hp (js "component_name")) as [Hb3 Hn3]; [by_computation |].
  by rewrite !replaceAll_around_token.
Qed.

(** C3: a format with a token that is not one of the three placeholders
    is rendered like any other: the token is still there after the three
    substitutions, and the filename has an underscore for each of its
    braces and for every character of its name outside [[A-Za-z0-9_-]],
    between the sanitized text in front of it and behind it; when no value
    contains a dollar sign, that text is the substituted text in front of
    the token and behind it. *)
Theorem C3_unrecognized_token_kept
    (pre name post siteId category componentName : jsString) :
  braceFree name → name ∉ recognized →
  let format := pre ++ token name ++ post in
  (∃ X Y,
     UploadPage.substitutePlaceholders format siteId category componentName
     = X ++ token name ++ Y
     ∧ UploadPage.renderPreview format siteId category componentName
       = Regex.sanitize X ++ js "_" ++ Regex.sanitize name ++ js "_"
           ++ Regex.sanitize Y ++ js ".jpg")
  ∧ (∀ i c, name !! i = Some c →
       Regex.sanitize name !! i
       = Some (if Regex.inClass c then c else chr "_"))
  ∧ (dollarFree siteId → dollarFree category → dollarFree componentName →
     UploadPage.renderPreview format siteId category componentName
     = Regex.sanitize
         (UploadPage.substitutePlaceholders pre siteId category componentName)
         ++ js "_" ++ Regex.sanitize name ++ js "_"
         ++ Regex.sanitize
              (UploadPage.substitutePlaceholders post siteId category
                 componentName)
         ++ js ".jpg").
Proof.
  intros Hname Hnot format. split; [| split].
  - destruct (substitutePlaceholders_keeps_token pre name post siteId
                category componentName Hname Hnot) as (X & Y & HXY).
    exists X, Y. split; [exact HXY |].
    unfold UploadPage.renderPreview, format. rewrite HXY.
    rewrite !sanitize_app, sanitize_token. by rewrite <- !app_assoc.
  - intros i c Hc. unfold Regex.sanitize. by rewrite list_lookup_fmap, Hc.
  - intros Hs Hc Hn. unfold UploadPage.renderPreview, format.
    rewrite substitutePlaceholders_around_token by done.
    rewrite !sanitize_app, sanitize_token. by rewrite <- !app_assoc.
Qed.

Lemma C3_unrecognized_token_kept_witness :
  UploadPage.renderPreview (js "{site_id} {date} x") (js "S1") (js "alpha")
    (js "Antenna_Front_View")
  = js "S1__date__x.jpg".
Proof.
  assert (braceFree (js "date")) as Hname.
  { split; by_computation. }
  assert (js "date" ∉ recognized) as Hnot.
  { by_computation. }
  destruct (C3_unrecognized_token_kept (js "{site_id} ") (js "date")
              (js " x") (js "S1") (js "alpha") (js "Antenna_Front_View")
              Hname Hnot) as (_ & _ & Hrender).
  change (js "{site_id} {date} x")
    with (js "{site_id} " ++ token (js "date") ++ js " x").
  rewrite Hrender; [by vm_compute | ..];
    by_computation.
Defined.

(** ** Substitution and the contract *)

(** C2: the substitution of the preview at two inputs.  With the site id
    [$&] the placeholder is replaced by the matched text, that is by
    itself, where a verbatim substitution gives [$&]; with the site id
    [{category}] the second [replace] call rewrites the value the first
    one inserted, where the one-pass substitution gives [{category}], and
    so does the same code with the two calls in the other order. *)
Theorem C2_substitution_rewrites_values :
  let componentName := js "Antenna_Front_View" in
  let binding siteId :=
    {| Contract.site := siteId; Contract.category := js "alpha";
       Contract.component := componentName |} in
  let steps siteId :=
    [(js "{site_id}", siteId); (js "{category}", js "alpha");
     (js "{component_name}", componentName)] in
  (∀ format siteId,
     UploadPage.substitutePlaceholders format siteId (js "alpha")
       componentName
     = substituteInOrder (steps siteId) format)
  ∧ UploadPage.substitutePlaceholders (js "{site_id}") (js "$&") (js "alpha")
      componentName
    = js "{site_id}"
  ∧ Contract.substitute (binding (js "$&")) (js "{site_id}") = js "$&"
  ∧ UploadPage.getPreviewFilename
      (UploadPage.setEditableNamingFormat (js "{site_id}")
         (UploadPage.init (js "$&")))
    = js "_site_id_.jpg"
  ∧ UploadPage.substitutePlaceholders (js "{site_id}") (js "{category}")
      (js "alpha") componentName
    = js "alpha"
  ∧ Contract.substitute (binding (js "{category}")) (js "{site_id}")
    = js "{category}"
  ∧ (∃ swapped,
       swapped ≡ₚ steps (js "{category}")
       ∧ substituteInOrder swapped (js "{site_id}") = js "{category}")
  ∧ UploadPage.getPreviewFilename
      (UploadPage.setEditableNamingFormat (js "{site_id}")
         (UploadPage.init (js "{category}")))
    = js "alpha.jpg".
Proof.
  intros componentName binding steps.
  split; [reflexivity |].
  do 5 (split; [by vm_compute |]).
  split; [| by vm_compute].
  exists [(js "{category}", js "alpha"); (js "{site_id}", js "{category}");
          (js "{component_name}", componentName)].
  split; [apply perm_swap | by vm_compute].
Qed.

(** ** The extension of the preview *)

Lemma extensionOf_no_dot s : chr "." ∉ s → extensionOf s = None.
Proof.
  induction s as [|c s IH]; intros Hs; [done |].
  apply not_elem_of_cons in Hs as [Hc Hs]. simpl. rewrite IH by done.
  destruct (N.eqb_spec c (chr ".")) as [-> | _]; [by destruct Hc | done].
Qed.

Lemma extensionOf_app s extension :
  chr "." ∉ extension →
  extensionOf (s ++ chr "." :: extension) = Some extension.
Proof.
  intros Hext. induction s as [|c s IH]; simpl.
  - rewrite extensionOf_no_dot by done. reflexivity.
  - by rewrite IH.
Qed.

Lemma handleFileSelect_preview componentName file posted response st :
  UploadPage.getPreviewFilename
    (UploadPage.handleFileSelect componentName file posted response st).1
  = UploadPage.getPreviewFilename st.
Proof.
  unfold UploadPage.handleFileSelect, UploadPage.fetchCategoryImages.
  by repeat case_match; simplify_eq.
Qed.

(** C4 (amended): the preview ends in the fixed suffix [.jpg] behind the
    sanitized name, so its extension is [jpg] in every state; an upload,
    whatever the name of the file, leaves the preview as it was. *)
Theorem C4_preview_extension_is_jpg
    (st : UploadPage.State) (componentName : jsString)
    (file : UploadPage.File) (posted : bool)
    (response : option (list Image)) :
  let st' :=
    (UploadPage.handleFileSelect componentName (Some file) posted response
       st).1 in
  UploadPage.getPreviewFilename st' = UploadPage.getPreviewFilename st
  ∧ UploadPage.getPreviewFilename st
    = Regex.sanitize
        (UploadPage.substitutePlaceholders (UploadPage.editableNamingFormat st)
           (UploadPage.siteId st) (UploadPage.activeCategory st)
           (js "Antenna_Front_View"))
        ++ js ".jpg"
  ∧ extensionOf (UploadPage.getPreviewFilename st) = Some (js "jpg")
  ∧ extensionOf (UploadPage.getPreviewFilename st') = Some (js "jpg").
Proof.
  assert (∀ s, extensionOf (UploadPage.getPreviewFilename s) = Some (js "jpg"))
    as Hext.
  { intros s. unfold UploadPage.getPreviewFilename, UploadPage.renderPreview.
    apply (extensionOf_app _ (js "jpg")).
    by_computation. }
  intros st'. split; [apply handleFileSelect_preview |].
  split; [reflexivity |]. split; apply Hext.
Qed.

(** C4 as stated fails: after the upload of [photo.PNG] the extension of
    the preview is [jpg], not the lower-cased extension [png] of the
    file. *)
Lemma C4_extension_not_from_upload :
  let file := {| UploadPage.fileName := js "photo.PNG" |} in
  let st :=
    (UploadPage.handleFileSelect (js "Tower") (Some file) true (Some [])
       (UploadPage.setEditableNamingFormat (js "{site_id}")
          (UploadPage.init (js "S1")))).1 in
  toLowerCase <$> extensionOf (UploadPage.fileName file) = Some (js "png")
  ∧ UploadPage.getPreviewFilename st = js "S1.jpg"
  ∧ extensionOf (UploadPage.getPreviewFilename st)
    ≠ toLowerCase <$> extensionOf (UploadPage.fileName file).
Proof. by vm_compute. Qed.

Lemma categoryIds_plain category :
  category ∈ UploadPage.categoryIds → dollarFree category ∧ braceFree category.
Proof.
  unfold UploadPage.categoryIds. rewrite !elem_of_cons, elem_of_nil.
  intros [-> | [-> | [-> | []]]]; repeat split;
    by_computation.
Qed.

(** C5 (amended): for a format whose braces delimit tokens, a site id
    without braces and dollar signs and one of the three categories, the
    preview is what the contract renders for the component
    [Antenna_Front_View] and an original extension that is [jpg] in lower
    case. *)
Theorem C5_preview_agrees_with_contract
    (st : UploadPage.State) (pieces : list Piece) (extension : jsString) :
  UploadPage.editableNamingFormat st = formatOf pieces →
  wellBraced pieces →
  dollarFree (UploadPage.siteId st) → braceFree (UploadPage.siteId st) →
  UploadPage.activeCategory st ∈ UploadPage.categoryIds →
  toLowerCase extension = js "jpg" →
  UploadPage.getPreviewFilename st
  = Contract.render (UploadPage.editableNamingFormat st)
      {| Contract.site := UploadPage.siteId st;
         Contract.category := UploadPage.activeCategory st;
         Contract.component := js "Antenna_Front_View" |}
      extension.
Proof.
  intros Hformat Hpieces Hs1 Hs2 Hcategory Hext.
  destruct (categoryIds_plain _ Hcategory) as [Hc1 Hc2].
  unfold UploadPage.getPreviewFilename, UploadPage.renderPreview,
    Contract.render.
  rewrite sanitize_contract, Hformat, Hext, substitute_formatOf by done.
  rewrite substitutePlaceholders_formatOf; [done | done..|].
  by_computation.
Qed.

Lemma C5_preview_agrees_with_contract_witness :
  UploadPage.getPreviewFilename
    (UploadPage.setEditableNamingFormat (js "{site_id} {category}/{x}")
       (UploadPage.init (js "SITE-1")))
  = Contract.render (js "{site_id} {category}/{x}")
      {| Contract.site := js "SITE-1"; Contract.category := js "alpha";
         Contract.component := js "Antenna_Front_View" |}
      (js "JPG").
Proof.
  apply (C5_preview_agrees_with_contract
           (UploadPage.setEditableNamingFormat (js "{site_id} {category}/{x}")
              (UploadPage.init (js "SITE-1")))
           [Token (js "site_id"); Text (js " "); Token (js "category");
            Text (js "/"); Token (js "x")]
           (js "JPG")).
  - reflexivity.
  - repeat constructor; by_computation.
  - by_computation.
  - split; by_computation.
  - by_computation.
  - reflexivity.
Defined.

(** C5 as stated fails: the preview and what the contract renders differ
    for the site id [$&], for the site id [{category}], for the format
    [{cate{site_id}ry}], for a component other than [Antenna_Front_View]
    and for an original extension other than [jpg]. *)
Lemma C5_preview_drifts_from_contract :
  let binding siteId componentName :=
    {| Contract.site := siteId; Contract.category := js "alpha";
       Contract.component := componentName |} in
  let st format siteId :=
    UploadPage.setEditableNamingFormat format (UploadPage.init siteId) in
  let sample := js "Antenna_Front_View" in
  (UploadPage.getPreviewFilename (st (js "{site_id}") (js "$&"))
   = js "_site_id_.jpg"
   ∧ Contract.render (js "{site_id}") (binding (js "$&") sample) (js "jpg")
     = js "__.jpg")
  ∧ (UploadPage.getPreviewFilename (st (js "{site_id}") (js "{category}"))
     = js "alpha.jpg"
     ∧ Contract.render (js "{site_id}") (binding (js "{category}") sample)
         (js "jpg")
       = js "_category_.jpg")
  ∧ (UploadPage.getPreviewFilename (st (js "{cate{site_id}ry}") (js "go"))
     = js "alpha.jpg"
     ∧ Contract.render (js "{cate{site_id}ry}") (binding (js "go") sample)
         (js "jpg")
       = js "_category_.jpg")
  ∧ (UploadPage.getPreviewFilename (st (js "{component_name}") (js "SITE-1"))
     = js "Antenna_Front_View.jpg"
     ∧ Contract.render (js "{component_name}")
         (binding (js "SITE-1") (js "Tower")) (js "jpg")
       = js "Tower.jpg")
  ∧ (UploadPage.getPreviewFilename (st (js "{site_id}") (js "SITE-1"))
     = js "SITE-1.jpg"
     ∧ Contract.render (js "{site_id}") (binding (js "SITE-1") sample)
         (js "png")
       = js "SITE-1.png")
  ∧ UploadPage.getPreviewFilename (st (js "{site_id}") (js "$&"))
    ≠ Contract.render
        (UploadPage.editableNamingFormat (st (js "{site_id}") (js "$&")))
        (binding (js "$&") sample) (js "jpg").
Proof. by vm_compute. Qed.

(** * Further properties of the code *)

(** ** Formats without placeholders *)

Lemma occursIn_cons pat c s : occursIn pat s → occursIn pat (c :: s).
Proof. intros (front & back & ->). by exists (c :: front), back. Qed.

Lemma replaceFrom_absent pat rep s :
  ¬ occursIn pat s → ∀ before, Regex.replaceFrom pat rep before s = s.
Proof.
  induction s as [|c s IH]; intros Habsent before; [by simp replaceFrom |].
  rewrite replaceFrom_cons. destruct (decide _) as [[back Hpre] | _].
  - destruct Habsent. exists [], back. by rewrite Hpre.
  - rewrite IH; [done |]. intros Hocc. by apply Habsent, occursIn_cons.
Qed.

Lemma occursIn_open_brace name s : occursIn (token name) s → chr "{" ∈ s.
Proof.
  intros (front & back & ->). rewrite token_app.
  apply elem_of_app. right. apply elem_of_cons. by left.
Qed.

(** X1: a format in which none of the three placeholders occurs, for
    instance one without an opening brace, goes through the three [replace]
    calls unchanged, whatever the site id, the category and the component
    name are (dollar signs and braces included): the preview is the
    sanitized format followed by [.jpg], the same for every site. *)
Theorem X1_format_without_placeholders
    (format siteId category componentName : jsString) :
  ¬ occursIn (js "{site_id}") format →
  ¬ occursIn (js "{category}") format →
  ¬ occursIn (js "{component_name}") format →
  UploadPage.substitutePlaceholders format siteId category componentName
  = format
  ∧ UploadPage.renderPreview format siteId category componentName
    = Regex.sanitize format ++ js ".jpg".
Proof.
  intros H1 H2 H3.
  assert (UploadPage.substitutePlaceholders format siteId category
            componentName = format) as Heq.
  { unfold UploadPage.substitutePlaceholders, Regex.replaceAll.
    rewrite (replaceFrom_absent _ _ _ H1), (replaceFrom_absent _ _ _ H2).
    apply (replaceFrom_absent _ _ _ H3). }
  split; [exact Heq |]. unfold UploadPage.renderPreview. by rewrite Heq.
Qed.

Lemma X1_format_without_placeholders_witness :
  UploadPage.renderPreview (js "photo final (v2)") (js "$&{category}")
    (js "alpha") (js "Tower")
  = js "photo_final__v2_.jpg".
Proof.
  assert (∀ name, ¬ occursIn (token name) (js "photo final (v2)")) as Habsent.
  { intros name Hocc. apply occursIn_open_brace in Hocc.
    assert (chr "{" ∉ js "photo final (v2)") as Hnot by by_computation.
    exact (Hnot Hocc). }
  destruct (X1_format_without_placeholders (js "photo final (v2)")
              (js "$&{category}") (js "alpha") (js "Tower")) as [_ ->].
  - apply (Habsent (js "site_id")).
  - apply (Habsent (js "category")).
  - apply (Habsent (js "component_name")).
  - by vm_compute.
Defined.

(** ** Safe names *)

Lemma inClass_plain s :
  Forall (fun c => Regex.inClass c = true) s → braceFree s ∧ dollarFree s.
Proof.
  intros Hs. rewrite Forall_forall in Hs.
  repeat split; intros Hin; apply Hs in Hin; by vm_compute in Hin.
Qed.

Lemma categoryIds_inClass category :
  category ∈ UploadPage.categoryIds →
  Forall (fun c => Regex.inClass c = true) category.
Proof.
  unfold UploadPage.categoryIds. rewrite !elem_of_cons, elem_of_nil.
  intros [-> | [-> | [-> | []]]]; by repeat constructor.
Qed.

(** X2: when the literal text of the format and the site id consist of
    characters of [[a-zA-Z0-9_-]] and every token of the format is one of
    the three placeholders, the preview is the text with each placeholder
    replaced by its value, followed by [.jpg]: nothing is turned into an
    underscore.  The default format [{site_id}_{category}_{component_name}]
    is such a format. *)
Theorem X2_safe_format_previewed_verbatim
    (st : UploadPage.State) (pieces : list Piece) :
  UploadPage.editableNamingFormat st = formatOf pieces →
  Forall (fun p =>
            match p with
            | Text text => Forall (fun c => Regex.inClass c = true) text
            | Token name => name ∈ recognized
            end) pieces →
  Forall (fun c => Regex.inClass c = true) (UploadPage.siteId st) →
  UploadPage.activeCategory st ∈ UploadPage.categoryIds →
  UploadPage.getPreviewFilename st
  = concat (bindPiece
              {| Contract.site := UploadPage.siteId st;
                 Contract.category := UploadPage.activeCategory st;
                 Contract.component := js "Antenna_Front_View" |}
              <$> pieces)
      ++ js ".jpg".
Proof.
  intros Hformat Hpieces Hsite Hcategory.
  destruct (inClass_plain _ Hsite) as [Hs1 Hs2].
  pose proof (categoryIds_inClass _ Hcategory) as Hcat.
  destruct (inClass_plain _ Hcat) as [Hc1 Hc2].
  unfold UploadPage.getPreviewFilename, UploadPage.renderPreview.
  rewrite Hformat, substitutePlaceholders_formatOf; [| | done..|].
  - f_equal. apply sanitize_fixed, Forall_concat, Forall_fmap.
    eapply Forall_impl; [exact Hpieces |].
    intros [text | name] Hp; simpl; [done |].
    repeat case_decide; try done; [by repeat constructor |].
    unfold recognized in Hp. rewrite !elem_of_cons, elem_of_nil in Hp.
    destruct Hp as [? | [? | [? | []]]]; congruence.
  - eapply Forall_impl; [exact Hpieces |].
    intros [text | name] Hp; [by apply inClass_plain |].
    by apply recognized_braceFree.
  - by_computation.
Qed.

Lemma X2_safe_format_previewed_verbatim_witness :
  UploadPage.getPreviewFilename
    (UploadPage.cancelNamingEdit (UploadPage.init (js "SITE-2024-001")))
  = js "SITE-2024-001_alpha_Antenna_Front_View.jpg".
Proof.
  rewrite (X2_safe_format_previewed_verbatim
             (UploadPage.cancelNamingEdit (UploadPage.init (js "SITE-2024-001")))
             [Token (js "site_id"); Text (js "_"); Token (js "category");
              Text (js "_"); Token (js "component_name")]).
  - by vm_compute.
  - reflexivity.
  - repeat constructor; by_computation.
  - by repeat constructor.
  - by_computation.
Defined.

(** ** The placeholder buttons *)

Lemma formatOf_app pieces1 pieces2 :
  formatOf (pieces1 ++ pieces2) = formatOf pieces1 ++ formatOf pieces2.
Proof. unfold formatOf. by rewrite fmap_app, concat_app. Qed.

(** X3: on a format whose braces delimit tokens, for a site id without
    braces and dollar signs, a click on a placeholder button appends the
    value of that placeholder to the substituted text, so the preview
    grows by the sanitized value in front of [.jpg]. *)
Theorem X3_placeholder_button_appends_value
    (st : UploadPage.State) (pieces : list Piece) (name : jsString) :
  UploadPage.editableNamingFormat st = formatOf pieces →
  wellBraced pieces →
  dollarFree (UploadPage.siteId st) → braceFree (UploadPage.siteId st) →
  UploadPage.activeCategory st ∈ UploadPage.categoryIds →
  name ∈ recognized →
  let st' := UploadPage.insertPlaceholder (token name) st in
  let value :=
    bindPiece {| Contract.site := UploadPage.siteId st;
                 Contract.category := UploadPage.activeCategory st;
                 Contract.component := js "Antenna_Front_View" |}
      (Token name) in
  UploadPage.offered (UploadPage.setIsNamingFormatModalOpen true st)
    (UploadPage.PlaceholderInserted (token name))
  ∧ UploadPage.getPreviewFilename st'
    = Regex.sanitize
        (UploadPage.substitutePlaceholders (UploadPage.editableNamingFormat st)
           (UploadPage.siteId st) (UploadPage.activeCategory st)
           (js "Antenna_Front_View"))
        ++ Regex.sanitize value ++ js ".jpg".
Proof.
  intros Hformat Hpieces Hs1 Hs2 Hcategory Hname st' value.
  destruct (categoryIds_plain _ Hcategory) as [Hc1 Hc2].
  split.
  - simpl. split; [done |].
    unfold recognized in Hname. rewrite !elem_of_cons, elem_of_nil in *.
    destruct Hname as [-> | [-> | [-> | []]]]; auto.
  - unfold UploadPage.getPreviewFilename, UploadPage.renderPreview, st',
      UploadPage.insertPlaceholder.
    cbn [UploadPage.editableNamingFormat UploadPage.siteId
           UploadPage.activeCategory UploadPage.setEditableNamingFormat].
    rewrite Hformat.
    replace (formatOf pieces ++ token name)
      with (formatOf (pieces ++ [Token name]))
      by (rewrite formatOf_app; unfold formatOf at 2; simpl;
          by rewrite app_nil_r).
    rewrite !substitutePlaceholders_formatOf; try done; try by_computation.
    + rewrite fmap_app, concat_app, sanitize_app, <- app_assoc. simpl.
      by rewrite app_nil_r.
    + apply Forall_app. split; [done |]. constructor; [| constructor].
      by apply recognized_braceFree.
Qed.

Lemma X3_placeholder_button_appends_value_witness :
  UploadPage.getPreviewFilename
    (UploadPage.insertPlaceholder (js "{category}")
       (UploadPage.setEditableNamingFormat (js "{site_id} ")
          (UploadPage.init (js "S1"))))
  = js "S1_alpha.jpg".
Proof.
  destruct (X3_placeholder_button_appends_value
              (UploadPage.setEditableNamingFormat (js "{site_id} ")
                 (UploadPage.init (js "S1")))
              [Token (js "site_id"); Text (js " ")] (js "category"))
    as [_ Hpreview].
  - reflexivity.
  - repeat constructor; by_computation.
  - by_computation.
  - split; by_computation.
  - by_computation.
  - by_computation.
  - change (js "{category}") with (token (js "category")).
    rewrite Hpreview. by vm_compute.
Defined.

(** ** Sanitizing *)

Lemma sanitize_inClass_iff s :
  Regex.sanitize s = s ↔ Forall (fun c => Regex.inClass c = true) s.
Proof.
  split; [| apply sanitize_fixed].
  intros Heq. rewrite <- Heq. apply sanitize_inClass.
Qed.

(** X4: the sanitizing [replace] keeps the length of the text, changes
    nothing when applied a second time, and leaves a text unchanged exactly
    when all its characters are in [[a-zA-Z0-9_-]]; the preview is four
    characters longer than the substituted format, and its only dot is
    the one of [.jpg]. *)
Theorem X4_sanitize_idempotent_same_length :
  (∀ s, length (Regex.sanitize s) = length s)
  ∧ (∀ s, Regex.sanitize (Regex.sanitize s) = Regex.sanitize s)
  ∧ (∀ s, Regex.sanitize s = s
          ↔ Forall (fun c => Regex.inClass c = true) s)
  ∧ (∀ s i c, s !! i = Some c → Regex.inClass c = true →
              Regex.sanitize s !! i = Some c)
  ∧ (∀ st,
       length (UploadPage.getPreviewFilename st)
       = (length
            (UploadPage.substitutePlaceholders
               (UploadPage.editableNamingFormat st) (UploadPage.siteId st)
               (UploadPage.activeCategory st) (js "Antenna_Front_View"))
          + 4)%nat
       ∧ ∀ i c, UploadPage.getPreviewFilename st !! i = Some c →
                c = chr "." → S i = (length (UploadPage.getPreviewFilename st) - 3)%nat).
Proof.
  split; [apply sanitize_length |].
  split; [intros s; apply sanitize_fixed, sanitize_inClass |].
  split; [apply sanitize_inClass_iff |].
  split.
  - intros s i c Hi Hc. unfold Regex.sanitize.
    by rewrite list_lookup_fmap, Hi; simpl; rewrite Hc.
  - intros st.
    unfold UploadPage.getPreviewFilename, UploadPage.renderPreview.
    rewrite length_app, sanitize_length. split; [done |].
    intros i c Hi ->. apply lookup_app_Some in Hi as [Hi | [Hlen Hi]].
    + pose proof (sanitize_inClass
                    (UploadPage.substitutePlaceholders
                       (UploadPage.editableNamingFormat st)
                       (UploadPage.siteId st) (UploadPage.activeCategory st)
                       (js "Antenna_Front_View"))) as Hall.
      rewrite Forall_forall in Hall.
      apply list_elem_of_lookup_2, Hall in Hi. by vm_compute in Hi.
    + rewrite sanitize_length in *. simpl.
      destruct (i - _)%nat as [|[|[|[|k]]]] eqn:Hk; vm_compute in Hi;
        try discriminate.
      lia.
Qed.

Lemma X4_sanitize_idempotent_same_length_witness :
  Regex.sanitize (js "a b") !! 0%nat = Some (chr "a")
  ∧ Regex.sanitize (js "SITE-1_x") = js "SITE-1_x".
Proof.
  destruct X4_sanitize_idempotent_same_length as (_ & _ & Hfix & Hkeep & _).
  split.
  - apply (Hkeep (js "a b") 0%nat (chr "a")); reflexivity.
  - apply Hfix. by repeat constructor.
Defined.

(** ** The landing page and white space *)

Lemma trimStart_app_whiteSpace l s :
  Forall whiteSpace l → trimStart (l ++ s) = trimStart s.
Proof. induction 1 as [|c l Hc _ IH]; simpl; [done |]. by rewrite Hc. Qed.

Lemma trimStart_app s r :
  trimStart s ≠ [] → trimStart (s ++ r) = trimStart s ++ r.
Proof.
  induction s as [|c s IH]; simpl; [done |].
  by destruct (isWhiteSpace c).
Qed.

Lemma trimEnd_app_whiteSpace s r :
  Forall whiteSpace r → trimEnd (s ++ r) = trimEnd s.
Proof.
  intros Hr. unfold trimEnd.
  rewrite reverse_app, trimStart_app_whiteSpace; [done |].
  by apply Forall_reverse.
Qed.

Lemma trimStart_nil s : trimStart s = [] → Forall whiteSpace s.
Proof.
  intros H. destruct (trimStart_split s) as (l & Hs & Hl).
  rewrite H, app_nil_r in Hs. by subst.
Qed.

Lemma trim_surrounded l s r :
  Forall whiteSpace l → Forall whiteSpace r → trim (l ++ s ++ r) = trim s.
Proof.
  intros Hl Hr. unfold trim. rewrite trimStart_app_whiteSpace by done.
  destruct (decide (trimStart s = [])) as [Hs | Hs].
  - rewrite Hs. apply trimStart_nil in Hs.
    rewrite trimStart_whiteSpace; [done |]. by apply Forall_app.
  - rewrite trimStart_app by done. by apply trimEnd_app_whiteSpace.
Qed.

(** X5: two inputs of the landing page lead to the same navigation (or to
    none) exactly when they are equal after trimming; in particular white
    space typed around a site id changes neither the page navigated to nor
    whether the button is enabled. *)
Theorem X5_landing_ignores_surrounding_space :
  (∀ st1 st2,
     LandingPage.handleSubmit st1 = LandingPage.handleSubmit st2
     ↔ trim (LandingPage.siteId st1) = trim (LandingPage.siteId st2))
  ∧ (∀ st l r,
       Forall whiteSpace l → Forall whiteSpace r →
       let typed :=
         LandingPage.setSiteId (l ++ LandingPage.siteId st ++ r) st in
       LandingPage.handleSubmit typed = LandingPage.handleSubmit st
       ∧ LandingPage.submitDisabled typed = LandingPage.submitDisabled st).
Proof.
  split.
  - intros st1 st2. unfold LandingPage.handleSubmit. split.
    + destruct (trim (LandingPage.siteId st1)) as [|c1 t1] eqn:H1,
        (trim (LandingPage.siteId st2)) as [|c2 t2] eqn:H2; cbn [truthy];
        try done.
      by intros [= -> ->].
    + by intros ->.
  - intros st l r Hl Hr typed.
    unfold LandingPage.handleSubmit, LandingPage.submitDisabled, typed.
    simpl. by rewrite trim_surrounded.
Qed.

Lemma X5_landing_ignores_surrounding_space_witness :
  LandingPage.handleSubmit
    (LandingPage.setSiteId (js "  " ++ js "SITE 7" ++ [9; 10; 160]%N)
       {| LandingPage.siteId := js "SITE 7" |})
  = [Navigate (js "/upload/SITE 7")].
Proof.
  destruct X5_landing_ignores_surrounding_space as [_ Hspace].
  destruct (Hspace {| LandingPage.siteId := js "SITE 7" |} (js "  ")
              [9; 10; 160]%N) as [Hsame _]; [by repeat constructor.. |].
  etransitivity; [exact Hsame | by vm_compute].
Defined.

(** ** Requests that fail *)

Ltac unfold_handlers :=
  unfold UploadPage.fetchComponentNames, UploadPage.fetchCategoryNames,
    UploadPage.fetchNamingFormat, UploadPage.handleDrop,
    UploadPage.handleFileSelect, UploadPage.fetchCategoryImages,
    UploadPage.handleDownload, UploadPage.handleRemoveComponent,
    UploadPage.handleSaveComponentNames, UploadPage.handleSaveCategoryNames,
    UploadPage.handleSaveNamingFormat in *.

(** X6: a request that fails (a load, an upload, a download or a save)
    leaves the state of the page exactly as it was, writes to the console
    first and never shows a success toast; it shows an error toast unless
    it is the load of the category names, of the naming format or of the
    images, which fail silently.  When an upload succeeds and the reload of
    the images fails, the state is unchanged as well and the success toast
    is shown. *)
Theorem X6_failed_request_keeps_state
    (e : UploadPage.Event) (st : UploadPage.State) :
  failed e = true →
  (UploadPage.handle e st).1 = st
  ∧ (∃ message rest,
       (UploadPage.handle e st).2 = ConsoleError message :: rest)
  ∧ (∀ message, ToastSuccess message ∉ (UploadPage.handle e st).2)
  ∧ existsb isToast (UploadPage.handle e st).2 = negb (silent e)
  ∧ (∀ componentName file,
       UploadPage.handleFileSelect componentName (Some file) true None st
       = (st, [ToastSuccess (componentName ++ js " uploaded successfully");
               ConsoleError (js "Error fetching category images:")])).
Proof.
  intros Hfailed.
  destruct e; simpl in Hfailed; try discriminate;
    repeat match goal with
      | x : option _ |- _ => destruct x; try discriminate
      | x : bool |- _ => destruct x; try discriminate
      | x : UploadPage.PutResult |- _ => destruct x; try discriminate
      end;
    (split; [reflexivity |]); (split; [by eexists _, _ |]);
    (split; [| split; [reflexivity | reflexivity]]);
    intros message Hin; simpl in Hin;
    repeat (apply elem_of_cons in Hin as [Hin | Hin]; [discriminate |]);
    by apply elem_of_nil in Hin.
Qed.

Lemma X6_failed_request_keeps_state_witness :
  let st :=
    UploadPage.setEditableNames [js "Tower"] (UploadPage.init (js "S1")) in
  (UploadPage.handle
     (UploadPage.ComponentsSaved (UploadPage.PutFailed None)) st).1
  = st.
Proof.
  intros st.
  apply (X6_failed_request_keeps_state
           (UploadPage.ComponentsSaved (UploadPage.PutFailed None)) st).
  reflexivity.
Defined.

(** ** What an event may change *)

Lemma handle_siteId e st :
  UploadPage.siteId (UploadPage.handle e st).1 = UploadPage.siteId st.
Proof.
  destruct e; simpl; unfold_handlers; by repeat case_match; simplify_eq.
Qed.

Lemma handle_saved e st :
  commits e = false →
  UploadPage.componentNames (UploadPage.handle e st).1
  = UploadPage.componentNames st
  ∧ UploadPage.categoryNames (UploadPage.handle e st).1
    = UploadPage.categoryNames st
  ∧ UploadPage.namingFormat (UploadPage.handle e st).1
    = UploadPage.namingFormat st.
Proof.
  intros He. destruct e; simpl in *; unfold_handlers;
    by repeat case_match; simplify_eq.
Qed.

Lemma handle_uploadedImages e st :
  loadsImages e = false →
  UploadPage.uploadedImages (UploadPage.handle e st).1
  = UploadPage.uploadedImages st.
Proof.
  intros He. destruct e; simpl in *; unfold_handlers;
    by repeat case_match; simplify_eq.
Qed.

(** X7: no event changes the site id; only a click on a tab changes the
    active category; the component names, the category names and the
    naming format in use change only when a load or a save of them
    succeeds, so typing in an editor, uploading, downloading and every
    failure leave them alone; the map of images changes only when an
    answer with the image list arrives. *)
Theorem X7_events_change_only_their_part
    (e : UploadPage.Event) (st : UploadPage.State) :
  let st' := (UploadPage.handle e st).1 in
  UploadPage.siteId st' = UploadPage.siteId st
  ∧ ((∀ category, e ≠ UploadPage.TabClicked category) →
     UploadPage.activeCategory st' = UploadPage.activeCategory st)
  ∧ (commits e = false →
     UploadPage.componentNames st' = UploadPage.componentNames st
     ∧ UploadPage.categoryNames st' = UploadPage.categoryNames st
     ∧ UploadPage.namingFormat st' = UploadPage.namingFormat st)
  ∧ (loadsImages e = false →
     UploadPage.uploadedImages st' = UploadPage.uploadedImages st).
Proof.
  intros st'. split; [apply handle_siteId |].
  split; [| split; [apply handle_saved | apply handle_uploadedImages]].
  intros Htab. unfold st'. destruct e; simpl; unfold_handlers;
    try by repeat case_match; simplify_eq.
  by destruct (Htab category).
Qed.

Lemma X7_events_change_only_their_part_witness :
  let st := UploadPage.init (js "S1") in
  UploadPage.namingFormat
    (UploadPage.handle (UploadPage.NamingTyped (js "x_{site_id}")) st).1
  = js "{site_id}_{category}_{component_name}".
Proof.
  intros st.
  destruct (X7_events_change_only_their_part
              (UploadPage.NamingTyped (js "x_{site_id}")) st)
    as (_ & _ & Hsaved & _).
  destruct Hsaved as (_ & _ & ->); reflexivity.
Defined.

Lemma reachable_siteId siteId st :
  UploadPage.reachable siteId st → UploadPage.siteId st = siteId.
Proof.
  unfold UploadPage.reachable. intros Hreach.
  eapply (rtc_ind_r (fun s => UploadPage.siteId s = siteId));
    [| | exact Hreach]; [done |].
  intros s s' _ [e _] IH. by rewrite handle_siteId.
Qed.

Lemma handle_uploadedImages_loaded e st :
  UploadPage.uploadedImages (UploadPage.handle e st).1
  = UploadPage.uploadedImages st
  ∨ ∃ images,
      UploadPage.uploadedImages (UploadPage.handle e st).1
      = UploadPage.imagesMap images.
Proof.
  destruct (loadsImages e) eqn:He.
  - right. destruct e; simpl in *; unfold_handlers;
      repeat case_match; simplify_eq; by eexists.
  - left. by apply handle_uploadedImages.
Qed.

Lemma reachable_proto siteId st :
  UploadPage.reachable siteId st →
  UploadPage.uploadedImages st !! js "__proto__" = None.
Proof.
  unfold UploadPage.reachable. intros Hreach.
  eapply (rtc_ind_r
            (fun s => UploadPage.uploadedImages s !! js "__proto__" = None));
    [| | exact Hreach]; [done |].
  intros s s' _ [e _] IH.
  destruct (handle_uploadedImages_loaded e s) as [-> | [images ->]];
    [done | apply imagesMap_proto].
Qed.

(** X8: in every state the page of a site can reach, the site id is the
    one of the route, the map of images has no key [__proto__] of its own,
    and every address [getImageUrl] returns lies in the upload area of
    that site under one of the three categories:
    [BACKEND_URL/uploads/<site>/<category>/<file>], where [file] is the
    non-empty filename stored under the component name or, when nothing is
    stored under it and it is the name of a member of [Object.prototype],
    the text of that member. *)
Theorem X8_image_addresses_stay_in_site
    (BACKEND_URL siteId : jsString) (nativeText : jsString → jsString)
    (st : UploadPage.State) :
  UploadPage.reachable siteId st →
  UploadPage.siteId st = siteId
  ∧ UploadPage.uploadedImages st !! js "__proto__" = None
  ∧ ∀ componentName url,
      UploadPage.getImageUrl BACKEND_URL nativeText st componentName
      = Some url →
      ∃ category file,
        category ∈ UploadPage.categoryIds
        ∧ url = BACKEND_URL ++ js "/uploads/" ++ siteId ++ js "/"
                  ++ category ++ js "/" ++ file
        ∧ ((UploadPage.uploadedImages st !! componentName = Some file
            ∧ file ≠ [])
           ∨ (UploadPage.uploadedImages st !! componentName = None
              ∧ componentName ∈ UploadPage.objectPrototypeMembers
              ∧ file = UploadPage.toStringValue nativeText
                         (UploadPage.Inherited componentName))).
Proof.
  intros Hreach. pose proof (reachable_siteId _ _ Hreach) as Hsite.
  pose proof (reachable_activeCategory _ _ Hreach) as Hcategory.
  split; [exact Hsite |]. split; [by eapply reachable_proto |].
  intros componentName url.
  destruct (UploadPage.uploadedImages st !! componentName)
    as [stored|] eqn:Hown.
  - rewrite (getImageUrl_own _ _ _ _ _ Hown).
    destruct stored as [|c stored]; simpl; [discriminate |].
    intros [= <-]. exists (UploadPage.activeCategory st), (c :: stored).
    split; [done |]. split; [by rewrite Hsite | by left].
  - destruct (decide (componentName ∈ UploadPage.objectPrototypeMembers))
      as [Hin | Hin].
    + rewrite (getImageUrl_inherited _ _ _ _ Hown Hin). intros [= <-].
      eexists (UploadPage.activeCategory st), _.
      split; [done |]. split; [by rewrite Hsite | by right].
    + by rewrite (getImageUrl_undefined _ _ _ _ Hown Hin).
Qed.

Lemma X8_image_addresses_stay_in_site_witness :
  let images := [ {| component_name := js "Mast"; filename := js "m.png" |} ] in
  let st :=
    (UploadPage.handle (UploadPage.CategoryImagesLoaded (Some images))
       (UploadPage.handle
          (UploadPage.ComponentNamesLoaded (Some [js "Mast"]))
          (UploadPage.init (js "S1"))).1).1 in
  UploadPage.siteId st = js "S1"
  ∧ (∃ category file,
       category ∈ UploadPage.categoryIds
       ∧ js "http://h/uploads/S1/alpha/m.png"
         = js "http://h" ++ js "/uploads/" ++ js "S1" ++ js "/"
             ++ category ++ js "/" ++ file
       ∧ ((UploadPage.uploadedImages st !! js "Mast" = Some file ∧ file ≠ [])
          ∨ (UploadPage.uploadedImages st !! js "Mast" = None
             ∧ js "Mast" ∈ UploadPage.objectPrototypeMembers
             ∧ file = UploadPage.toStringValue (fun _ => js "function")
                        (UploadPage.Inherited (js "Mast")))))
  ∧ (∃ category file,
       category ∈ UploadPage.categoryIds
       ∧ js "http://h/uploads/S1/alpha/function"
         = js "http://h" ++ js "/uploads/" ++ js "S1" ++ js "/"
             ++ category ++ js "/" ++ file
       ∧ ((UploadPage.uploadedImages st !! js "valueOf" = Some file
           ∧ file ≠ [])
          ∨ (UploadPage.uploadedImages st !! js "valueOf" = None
             ∧ js "valueOf" ∈ UploadPage.objectPrototypeMembers
             ∧ file = UploadPage.toStringValue (fun _ => js "function")
                        (UploadPage.Inherited (js "valueOf"))))).
Proof.
  intros images st.
  destruct (X8_image_addresses_stay_in_site (js "http://h") (js "S1")
              (fun _ => js "function") st) as (Hsite & _ & Hurl).
  - unfold UploadPage.reachable.
    eapply rtc_l; [| apply rtc_once].
    + apply (UploadPage.step_event (UploadPage.init (js "S1"))
               (UploadPage.ComponentNamesLoaded (Some [js "Mast"]))).
      exact I.
    + apply (UploadPage.step_event _
               (UploadPage.CategoryImagesLoaded (Some images))).
      discriminate.
  - split; [exact Hsite |]. split.
    + apply (Hurl (js "Mast")). by vm_compute.
    + apply (Hurl (js "valueOf")). by vm_compute.
Defined.

(** ** Editing and cancelling *)

Lemma runEvents_snoc events e st :
  runEvents (events ++ [e]) st
  = (UploadPage.handle e (runEvents events st)).1.
Proof. unfold runEvents. by rewrite foldl_app. Qed.

Lemma isEdit_commits e : isEdit e = true → commits e = false.
Proof. by destruct e. Qed.

Lemma isEdit_loadsImages e : isEdit e = true → loadsImages e = false.
Proof. by destruct e. Qed.

Lemma isEdit_activeCategory e st :
  isEdit e = true →
  UploadPage.activeCategory (UploadPage.handle e st).1
  = UploadPage.activeCategory st.
Proof.
  intros He. destruct e; try discriminate; simpl; unfold_handlers;
    by repeat case_match; simplify_eq.
Qed.

(** X9: whatever is typed, added, removed or inserted in the three editors,
    in any number of steps, the component names, the category names, the
    naming format, the images and the active category of the page stay as
    they were, and Cancel in an editor puts the saved value back into
    it. *)
Theorem X9_cancel_discards_edits
    (edits : list UploadPage.Event) (st : UploadPage.State) :
  Forall (fun e => isEdit e = true) edits →
  let st' := runEvents edits st in
  UploadPage.componentNames st' = UploadPage.componentNames st
  ∧ UploadPage.categoryNames st' = UploadPage.categoryNames st
  ∧ UploadPage.namingFormat st' = UploadPage.namingFormat st
  ∧ UploadPage.uploadedImages st' = UploadPage.uploadedImages st
  ∧ UploadPage.activeCategory st' = UploadPage.activeCategory st
  ∧ UploadPage.editableNames (UploadPage.cancelEdit st')
    = UploadPage.componentNames st
  ∧ UploadPage.editableCategoryNames (UploadPage.cancelCategoryEdit st')
    = UploadPage.categoryNames st
  ∧ UploadPage.editableNamingFormat (UploadPage.cancelNamingEdit st')
    = UploadPage.namingFormat st.
Proof.
  intros Hedits st'.
  assert (UploadPage.componentNames st' = UploadPage.componentNames st
          ∧ UploadPage.categoryNames st' = UploadPage.categoryNames st
          ∧ UploadPage.namingFormat st' = UploadPage.namingFormat st
          ∧ UploadPage.uploadedImages st' = UploadPage.uploadedImages st
          ∧ UploadPage.activeCategory st' = UploadPage.activeCategory st)
    as (H1 & H2 & H3 & H4 & H5).
  { unfold st'. induction edits as [|e edits IH] using rev_ind; [done |].
    apply Forall_app in Hedits as [Hedits He].
    rewrite Forall_singleton in He. rewrite runEvents_snoc.
    destruct (IH Hedits) as (I1 & I2 & I3 & I4 & I5).
    destruct (handle_saved e (runEvents edits st) (isEdit_commits e He))
      as (-> & -> & ->).
    rewrite (handle_uploadedImages e _ (isEdit_loadsImages e He)).
    by rewrite (isEdit_activeCategory e _ He). }
  repeat split; done.
Qed.

Lemma X9_cancel_discards_edits_witness :
  let st :=
    (UploadPage.handle
       (UploadPage.ComponentNamesLoaded (Some [js "Tower"; js "Mast"]))
       (UploadPage.init (js "S1"))).1 in
  let edits :=
    [UploadPage.ComponentAdded; UploadPage.ComponentRemoved 0;
     UploadPage.ComponentRenamed 0 (js "Pole");
     UploadPage.NamingTyped (js "x")] in
  UploadPage.editableNames (runEvents edits st)
  = [js "Pole"; js "New Component 3"]
  ∧ UploadPage.editableNames (UploadPage.cancelEdit (runEvents edits st))
    = [js "Tower"; js "Mast"].
Proof.
  intros st edits. split; [by vm_compute |].
  destruct (X9_cancel_discards_edits edits st)
    as (_ & _ & _ & _ & _ & -> & _); [by repeat constructor | reflexivity].
Defined.

(** ** Adding and removing a component *)

Lemma state_eta (st : UploadPage.State) :
  UploadPage.setEditableNames (UploadPage.editableNames st) st = st.
Proof. by destruct st. Qed.

(** X10: [handleAddComponent] appends one entry and keeps the others; a
    click on the remove button of the new last row undoes it when the list
    had an entry before.  On an empty list the added entry cannot be
    removed again: the list stays [New Component 1] and the error toast
    is shown. *)
Theorem X10_add_then_remove (st : UploadPage.State) :
  let names := UploadPage.editableNames st in
  let added := UploadPage.handleAddComponent st in
  length (UploadPage.editableNames added) = S (length names)
  ∧ take (length names) (UploadPage.editableNames added) = names
  ∧ (names ≠ [] →
     UploadPage.handleRemoveComponent (length names) added = (st, []))
  ∧ (names = [] →
     UploadPage.editableNames added = [js "New Component 1"]
     ∧ UploadPage.handleRemoveComponent 0 added
       = (added, [ToastError (js "Must have at least one component")])).
Proof.
  intros names added. unfold added, UploadPage.handleAddComponent. simpl.
  fold names. split; [rewrite length_app; simpl; lia |].
  split; [by rewrite take_app_length |]. split.
  - intros Hne. unfold UploadPage.handleRemoveComponent. simpl. fold names.
    match goal with
    | |- context [Nat.leb ?n 1] => destruct (Nat.leb_spec n 1) as [Hle | _]
    end.
    { rewrite length_app in Hle. destruct names; [done |]. simpl in Hle. lia. }
    rewrite filterIndexNot_delete by lia.
    rewrite Nat.sub_0_r, delete_middle, app_nil_r.
    destruct st. reflexivity.
  - intros Hnil. unfold UploadPage.handleRemoveComponent. simpl. fold names.
    by rewrite Hnil.
Qed.

Lemma X10_add_then_remove_witness :
  let st :=
    UploadPage.setEditableNames [js "Tower"; js "Mast"]
      (UploadPage.init (js "S1")) in
  UploadPage.handleRemoveComponent 2 (UploadPage.handleAddComponent st)
  = (st, []).
Proof.
  intros st.
  destruct (X10_add_then_remove st) as (_ & _ & Hundo & _).
  by apply Hundo.
Defined.

(** ** Renaming *)

(** X11: after a category label is changed in the editor and saved, the
    tab of that category shows the new label, or the capitalized identifier
    when the new label is empty; every other tab shows what the editor held
    for it, with the same fallback; the editor is closed. *)
Theorem X11_saved_label_shown
    (st : UploadPage.State) (key value : jsString) :
  key ∈ UploadPage.categoryIds →
  let edited := UploadPage.changeCategoryName key value st in
  let st' := (UploadPage.handleSaveCategoryNames UploadPage.PutOk edited).1 in
  UploadPage.tabLabel st' key
  = (if truthy value then value else capitalize key)
  ∧ (∀ other, other ∈ UploadPage.categoryIds → other ≠ key →
       UploadPage.tabLabel st' other
       = UploadPage.orElse (UploadPage.editableCategoryNames st !! other)
           (capitalize other))
  ∧ UploadPage.isCategoryEditModalOpen st' = false
  ∧ (UploadPage.categoryTabs st').*1 = UploadPage.categoryIds.
Proof.
  intros Hkey edited st'. unfold UploadPage.tabLabel. simpl.
  split; [by rewrite lookup_insert_eq |].
  split; [| done]. intros other _ Hother. by rewrite lookup_insert_ne.
Qed.

Lemma X11_saved_label_shown_witness :
  let st :=
    (UploadPage.handle
       (UploadPage.CategoryNamesLoaded
          (Some (<[js "alpha" := js "North"]> ∅)))
       (UploadPage.init (js "S1"))).1 in
  let st' :=
    (UploadPage.handleSaveCategoryNames UploadPage.PutOk
       (UploadPage.changeCategoryName (js "alpha") [] st)).1 in
  UploadPage.tabLabel st' (js "alpha") = js "Alpha".
Proof.
  intros st st'.
  destruct (X11_saved_label_shown st (js "alpha") []) as [Hlabel _];
    [by_computation |].
  etransitivity; [exact Hlabel | by vm_compute].
Defined.

(** ** The size of the image map *)

Lemma imagesMap_dom images :
  dom (UploadPage.imagesMap images)
  = list_to_set (C := gset jsString)
      (filter (fun name => name ≠ js "__proto__") (component_name <$> images)).
Proof.
  induction images as [|img images IH] using rev_ind.
  - unfold UploadPage.imagesMap. simpl. apply dom_empty_L.
  - rewrite imagesMap_snoc, fmap_app, filter_app, list_to_set_app_L, <- IH.
    simpl. unfold UploadPage.assign.
    destruct (decide (component_name img = js "__proto__")) as [Hp | Hp].
    + rewrite filter_cons_False by (intros Hne; by apply Hne).
      rewrite filter_nil. simpl. by rewrite (right_id_L ∅ (∪)).
    + rewrite filter_cons_True by done. rewrite filter_nil, dom_insert_L.
      simpl. rewrite (right_id_L ∅ (∪)). apply (comm_L (∪)).
Qed.

Lemma filter_all {A} (P : A → Prop) `{∀ x, Decision (P x)} (l : list A) :
  Forall P l → filter P l = l.
Proof.
  induction 1 as [|x l Hx _ IH]; [done |].
  by rewrite filter_cons_True, IH.
Qed.

(** X12: the keys of the map built by [fetchCategoryImages] are exactly the
    component names of the answer other than [__proto__], under which no
    key is created; the map never has more entries than the answer has
    images; when no name is listed twice it has one entry per image not
    listed under [__proto__], so as many as images when that name is not
    listed. *)
Theorem X12_images_map_size (images : list Image) :
  let names := component_name <$> images in
  let kept := filter (fun name => name ≠ js "__proto__") names in
  dom (UploadPage.imagesMap images) = list_to_set (C := gset jsString) kept
  ∧ UploadPage.imagesMap images !! js "__proto__" = None
  ∧ (size (UploadPage.imagesMap images) ≤ length images)%nat
  ∧ (NoDup names →
     size (UploadPage.imagesMap images) = length kept
     ∧ (js "__proto__" ∉ names →
        size (UploadPage.imagesMap images) = length images)
     ∧ (js "__proto__" ∈ names →
        size (UploadPage.imagesMap images) < length images)%nat).
Proof.
  assert (size (UploadPage.imagesMap images) ≤ length images)%nat as Hle.
  { induction images as [|img images IH] using rev_ind; [done |].
    rewrite imagesMap_snoc, length_app. simpl. unfold UploadPage.assign.
    destruct (decide _); [lia |]. rewrite map_size_insert.
    destruct (_ !! _); simpl; lia. }
  intros names kept.
  split; [apply imagesMap_dom |]. split; [apply imagesMap_proto |].
  split; [exact Hle |].
  - intros Hnd.
    assert (size (UploadPage.imagesMap images) = length kept) as Hsize.
    { rewrite <- size_dom, imagesMap_dom. apply size_list_to_set.
      by apply NoDup_filter. }
    split; [exact Hsize |]. split.
    + intros Hnot. rewrite Hsize. unfold kept. rewrite filter_all.
      * unfold names. by rewrite length_fmap.
      * apply Forall_forall. intros name Hin ->. by apply Hnot.
    + intros Hin. rewrite Hsize. unfold kept.
      apply list_elem_of_split in Hin as (l1 & l2 & Hsplit).
      rewrite <- (length_fmap component_name images).
      fold names. rewrite Hsplit, filter_app, !length_app.
      rewrite filter_cons_False by (intros Hne; by apply Hne). simpl.
      pose proof (length_filter (fun name => name ≠ js "__proto__") l1).
      pose proof (length_filter (fun name => name ≠ js "__proto__") l2).
      lia.
Qed.

Lemma X12_images_map_size_witness :
  size
    (UploadPage.imagesMap
       [ {| component_name := js "Tower"; filename := js "a.jpg" |};
         {| component_name := js "__proto__"; filename := js "p.jpg" |};
         {| component_name := js "Mast"; filename := js "b.jpg" |} ])
  = 2%nat
  ∧ size
      (UploadPage.imagesMap
         [ {| component_name := js "Tower"; filename := js "a.jpg" |};
           {| component_name := js "Mast"; filename := js "b.jpg" |} ])
    = 2%nat.
Proof.
  split.
  - destruct (X12_images_map_size
                [ {| component_name := js "Tower"; filename := js "a.jpg" |};
                  {| component_name := js "__proto__"; filename := js "p.jpg" |};
                  {| component_name := js "Mast"; filename := js "b.jpg" |} ])
      as (_ & _ & _ & Hsize).
    destruct Hsize as (Hkept & _ & _).
    + apply (bool_decide_unpack (NoDup _)). by vm_compute.
    + etransitivity; [exact Hkept | by vm_compute].
  - destruct (X12_images_map_size
                [ {| component_name := js "Tower"; filename := js "a.jpg" |};
                  {| component_name := js "Mast"; filename := js "b.jpg" |} ])
      as (_ & _ & _ & Hsize).
    destruct Hsize as (_ & Hall & _).
    + apply (bool_decide_unpack (NoDup _)). by vm_compute.
    + apply Hall. by_computation.
Defined.

(** ** Cards, tabs and stored images *)

(** X13: [getImageUrl] addresses what [uploadedImages[componentName]]
    evaluates to (a stored filename, or the member of [Object.prototype] of
    that name) under the category that is active when it is called: after a
    click on another tab, and until the images of that category arrive, the
    filenames fetched for the previous category are addressed under the new
    one. *)
Theorem X13_address_follows_active_tab
    (BACKEND_URL fetched clicked componentName : jsString)
    (nativeText : jsString → jsString) (value : UploadPage.Value)
    (images : list Image) (st : UploadPage.State) :
  let loaded :=
    (UploadPage.fetchCategoryImages fetched (Some images) st).1 in
  let switched :=
    (UploadPage.handle (UploadPage.TabClicked clicked) loaded).1 in
  UploadPage.getProperty (UploadPage.uploadedImages loaded) componentName
  = Some value →
  UploadPage.truthyValue value = true →
  UploadPage.uploadedImages switched = UploadPage.imagesMap images
  ∧ UploadPage.getImageUrl BACKEND_URL nativeText loaded componentName
    = Some (BACKEND_URL ++ js "/uploads/" ++ UploadPage.siteId st ++ js "/"
              ++ UploadPage.activeCategory st ++ js "/"
              ++ UploadPage.toStringValue nativeText value)
  ∧ UploadPage.getImageUrl BACKEND_URL nativeText switched componentName
    = Some (BACKEND_URL ++ js "/uploads/" ++ UploadPage.siteId st ++ js "/"
              ++ clicked ++ js "/"
              ++ UploadPage.toStringValue nativeText value).
Proof.
  simpl. intros Hvalue Htruthy. unfold UploadPage.getImageUrl. simpl.
  by rewrite Hvalue, Htruthy.
Qed.

Lemma X13_address_follows_active_tab_witness :
  let images :=
    [ {| component_name := js "Mast"; filename := js "m.png" |};
      {| component_name := js "__proto__"; filename := js "p.jpg" |} ] in
  let switched :=
    (UploadPage.handle (UploadPage.TabClicked (js "beta"))
       (UploadPage.fetchCategoryImages (js "alpha") (Some images)
          (UploadPage.init (js "S1"))).1).1 in
  UploadPage.getImageUrl (js "http://h") (fun _ => js "function") switched
    (js "Mast")
  = Some (js "http://h/uploads/S1/beta/m.png")
  ∧ UploadPage.getImageUrl (js "http://h") (fun _ => js "function") switched
      (js "__proto__")
    = Some (js "http://h/uploads/S1/beta/[object Object]").
Proof.
  intros images switched. split.
  - destruct (X13_address_follows_active_tab (js "http://h") (js "alpha")
                (js "beta") (js "Mast") (fun _ => js "function")
                (UploadPage.Str (js "m.png")) images
                (UploadPage.init (js "S1"))) as (_ & _ & Hswitched).
    + by vm_compute.
    + by vm_compute.
    + etransitivity; [exact Hswitched | by vm_compute].
  - destruct (X13_address_follows_active_tab (js "http://h") (js "alpha")
                (js "beta") (js "__proto__") (fun _ => js "function")
                (UploadPage.Inherited (js "__proto__")) images
                (UploadPage.init (js "S1"))) as (_ & _ & Hswitched).
    + by vm_compute.
    + by vm_compute.
    + etransitivity; [exact Hswitched | by vm_compute].
Defined.

Lemma imageCards_lookup BACKEND_URL nativeText st i :
  imageCards BACKEND_URL nativeText st !! i
  = (fun componentName =>
       (i, componentName,
        UploadPage.getImageUrl BACKEND_URL nativeText st componentName))
      <$> UploadPage.componentNames st !! i.
Proof. unfold imageCards. apply list_lookup_imap. Qed.

(** X14: the grid shows one card per component name, each with the address
    [getImageUrl] gives for its name.  When a component that has an image
    is renamed in the editor and the names are saved, its card carries the
    new name and the address of the new name, while the image is still in
    the map under the old name and the other cards are as before.  The card
    has no image when nothing is stored under the new name and the new name
    is not the name of a member of [Object.prototype]; when it is such a
    name, the card has the address of the text of that member. *)
Theorem X14_renamed_component_loses_image
    (BACKEND_URL old new stored : jsString)
    (nativeText : jsString → jsString) (i : nat)
    (st : UploadPage.State) :
  UploadPage.editableNames st = UploadPage.componentNames st →
  UploadPage.componentNames st !! i = Some old →
  UploadPage.uploadedImages st !! old = Some stored → stored ≠ [] →
  UploadPage.uploadedImages st !! new = None →
  let st' :=
    (UploadPage.handleSaveComponentNames UploadPage.PutOk
       (UploadPage.changeComponentName i new st)).1 in
  let address file :=
    BACKEND_URL ++ js "/uploads/" ++ UploadPage.siteId st ++ js "/"
      ++ UploadPage.activeCategory st ++ js "/" ++ file in
  let cards := imageCards BACKEND_URL nativeText in
  length (cards st') = length (UploadPage.componentNames st)
  ∧ cards st !! i = Some (i, old, Some (address stored))
  ∧ (new ∉ UploadPage.objectPrototypeMembers →
     cards st' !! i = Some (i, new, None))
  ∧ (new ∈ UploadPage.objectPrototypeMembers →
     cards st' !! i
     = Some (i, new,
             Some (address (UploadPage.toStringValue nativeText
                              (UploadPage.Inherited new)))))
  ∧ UploadPage.uploadedImages st' !! old = Some stored
  ∧ (∀ j, j ≠ i → cards st' !! j = cards st !! j).
Proof.
  intros Heditor Hold Hstored Hne Hnew st' address cards.
  assert (i < length (UploadPage.componentNames st))%nat as Hi
    by by eapply lookup_lt_Some.
  assert (UploadPage.componentNames st' !! i = Some new) as Hcard.
  { simpl. rewrite Heditor. by apply list_lookup_insert_eq. }
  assert (UploadPage.uploadedImages st' !! new = None) as Hnew' by done.
  unfold cards.
  split; [| split; [| split; [| split; [| split]]]].
  - unfold imageCards. rewrite length_imap. simpl.
    by rewrite Heditor, length_insert.
  - rewrite imageCards_lookup, Hold. simpl.
    rewrite (getImageUrl_own _ _ _ _ _ Hstored). by destruct stored.
  - intros Hin. rewrite imageCards_lookup, Hcard. simpl.
    by rewrite (getImageUrl_undefined _ _ _ _ Hnew' Hin).
  - intros Hin. rewrite imageCards_lookup, Hcard. simpl.
    by rewrite (getImageUrl_inherited _ _ _ _ Hnew' Hin).
  - done.
  - intros j Hj. rewrite !imageCards_lookup. simpl. rewrite Heditor.
    by rewrite list_lookup_insert_ne.
Qed.

Lemma X14_renamed_component_loses_image_witness :
  let images := [ {| component_name := js "Mast"; filename := js "m.png" |} ] in
  let st :=
    (UploadPage.fetchCategoryImages (js "alpha") (Some images)
       (UploadPage.fetchComponentNames (Some [js "Tower"; js "Mast"])
          (UploadPage.init (js "S1"))).1).1 in
  let renamed new :=
    (UploadPage.handleSaveComponentNames UploadPage.PutOk
       (UploadPage.changeComponentName 1 new st)).1 in
  imageCards (js "http://h") (fun _ => js "function") (renamed (js "Pole"))
    !! 1%nat
  = Some (1%nat, js "Pole", None)
  ∧ imageCards (js "http://h") (fun _ => js "function")
      (renamed (js "toString")) !! 1%nat
    = Some (1%nat, js "toString",
            Some (js "http://h/uploads/S1/alpha/function")).
Proof.
  intros images st renamed. split.
  - destruct (X14_renamed_component_loses_image (js "http://h") (js "Mast")
                (js "Pole") (js "m.png") (fun _ => js "function") 1 st)
      as (_ & _ & Hnone & _).
    + by vm_compute.
    + by vm_compute.
    + by vm_compute.
    + discriminate.
    + by vm_compute.
    + apply Hnone. by_computation.
  - destruct (X14_renamed_component_loses_image (js "http://h") (js "Mast")
                (js "toString") (js "m.png") (fun _ => js "function") 1 st)
      as (_ & _ & _ & Hmember & _).
    + by vm_compute.
    + by vm_compute.
    + by vm_compute.
    + discriminate.
    + by vm_compute.
    + etransitivity; [apply Hmember; by_computation | by vm_compute].
Defined.

(** ** Substituting twice *)

Lemma replaceFrom_length pat s :
  ∀ before, (length (Regex.replaceFrom pat [] before s) ≤ length s)%nat.
Proof.
  induction s as [s IH] using (induction_ltof1 _ (@length N)).
  unfold ltof in IH. intros before.
  destruct s as [|c s']; [by simp replaceFrom |].
  rewrite replaceFrom_cons. destruct (decide _) as [_ | _]; simpl.
  - etransitivity; [apply IH |]; rewrite length_drop; simpl; lia.
  - specialize (IH s' ltac:(simpl; lia) (before ++ [c])). lia.
Qed.

(** A call that deletes a text shortens every subject the text occurs
    in. *)
Lemma replaceFrom_occurs pat s :
  pat ≠ [] → occursIn pat s →
  ∀ before, (length (Regex.replaceFrom pat [] before s) < length s)%nat.
Proof.
  intros Hpat. induction s as [|c s' IH]; intros Hocc before.
  - destruct Hocc as (front & back & Hs). symmetry in Hs.
    apply app_eq_nil in Hs as [_ Hs]. by apply app_eq_nil in Hs as [? _].
  - rewrite replaceFrom_cons. destruct (decide _) as [_ | Hnot]; simpl.
    + pose proof (replaceFrom_length pat (drop (Nat.pred (length pat)) s')
                    (before ++ pat)) as Hle.
      rewrite length_drop in Hle. lia.
    + destruct Hocc as (front & back & Hs). destruct front as [|c' front].
      * destruct Hnot. exists back. by rewrite Hs.
      * injection Hs as -> ->.
        specialize (IH ltac:(by exists front, back) (before ++ [c'])). lia.
Qed.

Lemma formatOf_token_occurs pieces name :
  Token name ∈ pieces → occursIn (token name) (formatOf pieces).
Proof.
  intros Hin. apply list_elem_of_split in Hin as (l1 & l2 & ->).
  exists (formatOf l1), (formatOf l2). by rewrite formatOf_app.
Qed.

(** In a well-braced format a token occurs only where it is a piece. *)
Lemma formatOf_token_absent pieces name :
  wellBraced pieces → braceFree name → Token name ∉ pieces →
  ¬ occursIn (token name) (formatOf pieces).
Proof.
  intros Hpieces Hname Hnot Hocc.
  assert (token name ≠ []) as Htoken by (by rewrite token_unfold).
  pose proof (replaceFrom_occurs _ _ Htoken Hocc []) as Hlt.
  fold (Regex.replaceAll (token name) [] (formatOf pieces)) in Hlt.
  rewrite (replaceAll_formatOf name [] Hname) in Hlt;
    [| by apply not_elem_of_nil | done].
  replace (substPiece name [] <$> pieces) with pieces in Hlt; [lia |].
  rewrite <- (list_fmap_id pieces) at 1. apply list_fmap_ext.
  intros k [text | n] Hk; simpl; [done |].
  destruct (decide (n = name)) as [-> | _]; [| done].
  destruct Hnot. by eapply list_elem_of_lookup_2.
Qed.

(** X15: on a format whose braces delimit tokens, for values without
    braces and dollar signs, the three [replace] calls leave no placeholder
    behind: none of the three placeholders occurs in their result, which
    differs from the format as soon as the format has one; applied to
    their own result they change nothing, and the preview of the result is
    the preview of the format. *)
Theorem X15_substitution_idempotent
    (pieces : list Piece) (siteId category componentName : jsString) :
  wellBraced pieces →
  dollarFree siteId → braceFree siteId →
  dollarFree category → braceFree category →
  dollarFree componentName → braceFree componentName →
  let substituted :=
    UploadPage.substitutePlaceholders (formatOf pieces) siteId category
      componentName in
  (∀ name, name ∈ recognized → ¬ occursIn (token name) substituted)
  ∧ (∀ name, name ∈ recognized → Token name ∈ pieces →
       occursIn (token name) (formatOf pieces)
       ∧ substituted ≠ formatOf pieces)
  ∧ UploadPage.substitutePlaceholders substituted siteId category
      componentName
    = substituted
  ∧ UploadPage.renderPreview substituted siteId category componentName
    = UploadPage.renderPreview (formatOf pieces) siteId category
        componentName.
Proof.
  intros Hpieces Hs1 Hs2 Hc1 Hc2 Hn1 Hn2 substituted.
  set (pieces' :=
         substPiece (js "component_name") componentName
           <$> (substPiece (js "category") category
                  <$> (substPiece (js "site_id") siteId <$> pieces))).
  assert (wellBraced pieces') as Hpieces'.
  { by do 3 (apply substPiece_wellBraced; [done |]). }
  assert (substituted = formatOf pieces') as Hsubstituted.
  { unfold substituted, UploadPage.substitutePlaceholders.
    change (js "{site_id}") with (token (js "site_id")).
    change (js "{category}") with (token (js "category")).
    change (js "{component_name}") with (token (js "component_name")).
    pose proof (substPiece_wellBraced (js "site_id") siteId pieces Hs2 Hpieces).
    pose proof (substPiece_wellBraced (js "category") category _ Hc2 H).
    rewrite !replaceAll_formatOf;
      [done | done || (apply recognized_braceFree; by_computation)..]. }
  assert (UploadPage.substitutePlaceholders substituted siteId category
            componentName = substituted) as Hfix.
  { rewrite Hsubstituted at 1.
    rewrite substitutePlaceholders_formatOf by done.
    unfold substituted. rewrite substitutePlaceholders_formatOf by done.
    f_equal. unfold pieces'. rewrite <- !list_fmap_compose.
    apply list_fmap_ext. intros _ [text | n] _; simpl; [done |].
    repeat (case_decide; simpl; try done). }
  assert (∀ name, name ∈ recognized → ¬ occursIn (token name) substituted)
    as Habsent.
  { intros name Hname. rewrite Hsubstituted.
    apply formatOf_token_absent;
      [done | by apply recognized_braceFree |].
    unfold pieces'. rewrite <- !list_fmap_compose. intros Hin.
    apply list_elem_of_fmap in Hin as ([text | n] & Heq & _);
      simpl in Heq; [done |].
    unfold recognized in Hname.
    rewrite !elem_of_cons, elem_of_nil in Hname.
    repeat (case_decide; simpl in Heq); try discriminate.
    injection Heq as <-. by destruct Hname as [? | [? | [? | []]]]. }
  split; [exact Habsent |]. split; [| split; [exact Hfix |]].
  - intros name Hname Hin.
    pose proof (formatOf_token_occurs _ _ Hin) as Hocc.
    split; [exact Hocc |]. intros Heq. rewrite Heq in Habsent.
    by apply (Habsent name).
  - unfold UploadPage.renderPreview. by rewrite Hfix.
Qed.

Lemma X15_substitution_idempotent_witness :
  let format := js "{site_id} {category} {x}" in
  let substituted :=
    UploadPage.substitutePlaceholders format (js "S1") (js "alpha")
      (js "Tower") in
  ¬ occursIn (token (js "site_id")) substituted
  ∧ ¬ occursIn (token (js "category")) substituted
  ∧ occursIn (token (js "site_id")) format
  ∧ substituted ≠ format
  ∧ UploadPage.substitutePlaceholders substituted (js "S1") (js "alpha")
      (js "Tower")
    = substituted.
Proof.
  intros format substituted.
  destruct (X15_substitution_idempotent
              [Token (js "site_id"); Text (js " "); Token (js "category");
               Text (js " "); Token (js "x")]
              (js "S1") (js "alpha") (js "Tower"))
    as (Habsent & Hchanged & Hfix & _).
  - repeat constructor; by_computation.
  - by_computation.
  - split; by_computation.
  - by_computation.
  - split; by_computation.
  - by_computation.
  - split; by_computation.
  - destruct (Hchanged (js "site_id")) as [Hocc Hne].
    + by_computation.
    + apply elem_of_cons. by left.
    + split; [apply (Habsent (js "site_id")); by_computation |].
      split; [apply (Habsent (js "category")); by_computation |].
      split; [exact Hocc |]. split; [exact Hne | exact Hfix].
Defined.

(** ** Generated component names *)

(** X16: [handleAddComponent] names the new entry after the length of the
    list, not after the names in it: the names stay distinct exactly when
    the list held no [New Component n+1] for its length [n].  After adding
    twice to an empty list, removing the first entry and adding again, the
    list holds [New Component 2] twice. *)
Theorem X16_added_name_may_repeat (st : UploadPage.State) :
  let names := UploadPage.editableNames st in
  let new := js "New Component " ++ numberToString (length names + 1) in
  UploadPage.editableNames (UploadPage.handleAddComponent st)
  = names ++ [new]
  ∧ (NoDup (UploadPage.editableNames (UploadPage.handleAddComponent st))
     ↔ NoDup names ∧ new ∉ names)
  ∧ (UploadPage.editableNames st = [] →
     UploadPage.editableNames
       (runEvents
          [UploadPage.ComponentAdded; UploadPage.ComponentAdded;
           UploadPage.ComponentRemoved 0; UploadPage.ComponentAdded] st)
     = [js "New Component 2"; js "New Component 2"]).
Proof.
  intros names new. split; [reflexivity |]. split.
  - unfold UploadPage.handleAddComponent. simpl. fold names new.
    rewrite NoDup_app. split.
    + intros (Hnd & Hnot & _). split; [done |]. intros Hin.
      apply (Hnot _ Hin). apply elem_of_cons. by left.
    + intros [Hnd Hnot]. split; [done |]. split.
      * intros x Hx Hx'. apply list_elem_of_singleton in Hx' as ->. done.
      * apply NoDup_singleton.
  - intros Hnil. unfold runEvents. simpl.
    unfold UploadPage.handleRemoveComponent, UploadPage.handleAddComponent.
    simpl. rewrite Hnil. by vm_compute.
Qed.

Lemma X16_added_name_may_repeat_witness :
  UploadPage.editableNames
    (runEvents
       [UploadPage.ComponentAdded; UploadPage.ComponentAdded;
        UploadPage.ComponentRemoved 0; UploadPage.ComponentAdded]
       (UploadPage.init (js "S1")))
  = [js "New Component 2"; js "New Component 2"].
Proof.
  by apply (X16_added_name_may_repeat (UploadPage.init (js "S1"))).
Defined.
